(** * generate_mail.py: recipients, body encodings and file name of a .msg mail

    A shallow embedding of [src/generate_mail.py].  Python strings are
    sequences of Unicode code points, byte strings are sequences of bytes,
    and the objects of the external [independentsoft.msg] library are
    records whose fields are the attributes the program assigns. *)

From Stdlib Require Import List NArith ZArith Bool Lia String Ascii.
From Stdlib Require Decimal.
Import ListNotations.

Set Implicit Arguments.
Set Warnings "-register-all".
Local Open Scope N_scope.

(** ** Python values *)

(** A [str]: its code points, in order. *)
Definition pystr := list N.

(** A [bytes] object: its bytes, each below 256. *)
Definition pybytes := list N.

(** ASCII literals of the program text, as code points. *)
Fixpoint lit (s : string) : pystr :=
  match s with
  | EmptyString => []
  | String a s' => N_of_ascii a :: lit s'
  end.

Definition LF : N := 10.
Definition SPACE : N := 32.
Definition AT : N := 64.
Definition DOT : N := 46.
Definition UNDERSCORE : N := 95.

(** The values the arguments [to] and [cc] may be bound to. *)
Inductive pyval :=
| PStr (s : pystr)
| PList (l : list pyval)
| PInt (n : Z)
| PBytes (b : pybytes)
| PNone.

(** Exceptions.  [TypeError (Some m)] is raised by the program with message
    [m]; [TypeError None] is raised by the interpreter or a library
    function, whose message text is not modelled. *)
Inductive exn :=
| AssertionError (msg : pystr)
| TypeError (msg : option pystr)
| IndexError
| AttributeError
| UnicodeError
| OSError.

Inductive result (A : Type) :=
| Ok (a : A)
| Raise (e : exn).
Arguments Ok {A} a.
Arguments Raise {A} e.

(** ** Library functions on strings *)

Definition digit_char (d : N) : N := 48 + d.

Fixpoint uint_chars (u : Decimal.uint) : pystr :=
  match u with
  | Decimal.Nil => []
  | Decimal.D0 u' => digit_char 0 :: uint_chars u'
  | Decimal.D1 u' => digit_char 1 :: uint_chars u'
  | Decimal.D2 u' => digit_char 2 :: uint_chars u'
  | Decimal.D3 u' => digit_char 3 :: uint_chars u'
  | Decimal.D4 u' => digit_char 4 :: uint_chars u'
  | Decimal.D5 u' => digit_char 5 :: uint_chars u'
  | Decimal.D6 u' => digit_char 6 :: uint_chars u'
  | Decimal.D7 u' => digit_char 7 :: uint_chars u'
  | Decimal.D8 u' => digit_char 8 :: uint_chars u'
  | Decimal.D9 u' => digit_char 9 :: uint_chars u'
  end.

(** [str(n)] for a natural number: its decimal digits. *)
Definition decimal (n : N) : pystr := uint_chars (N.to_uint n).

(** The replacement the [xmlcharrefreplace] error handler gives for a
    character the codec cannot encode. *)
Definition xmlcharref (c : N) : pystr := lit "&#" ++ decimal c ++ lit ";".

(** [s.encode('ascii', 'xmlcharrefreplace')]: the ASCII codec encodes the
    code points below 128 as themselves and hands every other one to the
    error handler. *)
Fixpoint encode_ascii_xmlcharrefreplace (s : pystr) : pybytes :=
  match s with
  | [] => []
  | c :: s' =>
      (if c <? 128 then [c] else xmlcharref c)
        ++ encode_ascii_xmlcharrefreplace s'
  end.

Definition continuation (b : N) : bool := (128 <=? b) && (b <=? 191).
Definition between (lo hi b : N) : bool := (lo <=? b) && (b <=? hi).
Definition low6 (b : N) : N := b mod 64.

Definition cons_ok (c : N) (r : option pystr) : option pystr :=
  match r with
  | Some s => Some (c :: s)
  | None => None
  end.

(** [b.decode()]: strict UTF-8 decoding; [None] stands for
    UnicodeDecodeError.  The well-formed sequences are those of the
    Unicode standard: no overlong forms, no surrogates, nothing above
    U+10FFFF. *)
Fixpoint decode_utf8 (b : pybytes) : option pystr :=
  match b with
  | [] => Some []
  | b0 :: r0 =>
      if b0 <? 128 then cons_ok b0 (decode_utf8 r0)
      else
        match r0 with
        | [] => None
        | b1 :: r1 =>
            if between 194 223 b0 then
              if continuation b1
              then cons_ok ((b0 mod 32) * 64 + low6 b1) (decode_utf8 r1)
              else None
            else
              match r1 with
              | [] => None
              | b2 :: r2 =>
                  if between 224 239 b0 then
                    if (if b0 =? 224 then between 160 191 b1
                        else if b0 =? 237 then between 128 159 b1
                        else continuation b1)
                       && continuation b2
                    then cons_ok ((b0 mod 16) * 4096 + low6 b1 * 64 + low6 b2)
                                 (decode_utf8 r2)
                    else None
                  else
                    match r2 with
                    | [] => None
                    | b3 :: r3 =>
                        if between 240 244 b0
                           && (if b0 =? 240 then between 144 191 b1
                               else if b0 =? 244 then between 128 143 b1
                               else continuation b1)
                           && continuation b2 && continuation b3
                        then cons_ok ((b0 mod 8) * 262144 + low6 b1 * 4096
                                      + low6 b2 * 64 + low6 b3)
                                     (decode_utf8 r3)
                        else None
                    end
              end
        end
  end.

Definition encode_utf8_char (c : N) : option pybytes :=
  if c <? 128 then Some [c]
  else if c <? 2048 then Some [192 + c / 64; 128 + c mod 64]
  else if between 55296 57343 c then None
  else if c <? 65536 then
    Some [224 + c / 4096; 128 + (c / 64) mod 64; 128 + c mod 64]
  else if c <? 1114112 then
    Some [240 + c / 262144; 128 + (c / 4096) mod 64;
          128 + (c / 64) mod 64; 128 + c mod 64]
  else None.

(** [s.encode("utf-8")]; [None] stands for UnicodeEncodeError (a lone
    surrogate).  Code points above U+10FFFF do not occur in a [str]. *)
Fixpoint encode_utf8 (s : pystr) : option pybytes :=
  match s with
  | [] => Some []
  | c :: s' =>
      match encode_utf8_char c, encode_utf8 s' with
      | Some b, Some r => Some (b ++ r)
      | _, _ => None
      end
  end.

(** [s.replace(old, new)] for a one-character [old]. *)
Fixpoint replace (old : N) (new : pystr) (s : pystr) : pystr :=
  match s with
  | [] => []
  | c :: s' => (if c =? old then new else [c]) ++ replace old new s'
  end.

Definition of_option {A} (o : option A) : result A :=
  match o with
  | Some a => Ok a
  | None => Raise UnicodeError
  end.

(** ** encode_html_characters *)

Definition encode_html_characters (unencoded_str : pystr) : result pystr :=
  match decode_utf8 (encode_ascii_xmlcharrefreplace unencoded_str) with
  | Some decoded => Ok (replace LF (lit "<br>") decoded)
  | None => Raise UnicodeError
  end.

(** ** Regular expressions, as far as [re.match] is used

    A pattern is a sequence of items; the only repetition is that of a
    character class, with a least number of occurrences and no upper
    bound ([+] is [{1,}]). *)
Inductive re_item :=
| Bol                               (* ^ *)
| Eol                               (* $ *)
| Lit (c : N)                       (* an ordinary or escaped character *)
| Rep (cls : N -> bool) (min : nat). (* [...]+ and [...]{min,} *)

Definition regex := list re_item.

(** Without the MULTILINE flag [$] matches at the end of the string and
    just before a line feed that ends the string. *)
Definition at_eol (s : pystr) : bool :=
  match s with
  | [] => true
  | [c] => c =? LF
  | _ => false
  end.

(** Greedy repetition with backtracking: take one more character of the
    class when there is one, and fall back to the rest of the pattern [k]
    once [min] occurrences have been taken.  [bos] tells whether the
    position is the beginning of the string. *)
Fixpoint match_rep (cls : N -> bool) (k : bool -> pystr -> bool)
         (min : nat) (bos : bool) (s : pystr) : bool :=
  match s with
  | c :: s' =>
      (cls c && match_rep cls k (Nat.pred min) false s')
      || (Nat.eqb min 0 && k bos s)
  | [] => Nat.eqb min 0 && k bos []
  end.

Fixpoint match_here (re : regex) : bool -> pystr -> bool :=
  match re with
  | [] => fun _ _ => true
  | Bol :: re' => fun bos s => bos && match_here re' bos s
  | Eol :: re' => fun bos s => at_eol s && match_here re' bos s
  | Lit c :: re' =>
      fun _ s =>
        match s with
        | x :: s' => (x =? c) && match_here re' false s'
        | [] => false
        end
  | Rep cls min :: re' => match_rep cls (match_here re')  min
  end.

(** [re.match(pattern, v)]: a match is looked for at the beginning of the
    string only; the result is a match object (true) or None (false).
    A pattern that is a [str] applies to a [str] only. *)
Definition re_match (pattern : regex) (v : pyval) : result bool :=
  match v with
  | PStr s => Ok (match_here pattern true s)
  | _ => Raise (TypeError None)
  end.

Definition lower (c : N) : bool := (97 <=? c) && (c <=? 122).
Definition upper (c : N) : bool := (65 <=? c) && (c <=? 90).
Definition digit (c : N) : bool := (48 <=? c) && (c <=? 57).

(** [[a-zA-Z0-9._%+-]] *)
Definition cls_local (c : N) : bool :=
  lower c || upper c || digit c
  || (c =? 46) || (c =? 95) || (c =? 37) || (c =? 43) || (c =? 45).

(** [[a-zA-Z0-9.-]] *)
Definition cls_domain (c : N) : bool :=
  lower c || upper c || digit c || (c =? 46) || (c =? 45).

(** [[a-zA-Z]] *)
Definition cls_alpha (c : N) : bool := lower c || upper c.

(** r'^[a-zA-Z0-9._%+-]+@[a-zA-Z0-9.-]+\.[a-zA-Z]{2,}$' *)
Definition email_regex : regex :=
  [Bol; Rep cls_local 1; Lit AT; Rep cls_domain 1; Lit DOT;
   Rep cls_alpha 2; Eol].

(** ** validate_mail_address *)

(** The message of the assertion:
    f"{am_i_a_mail_address} is not a valid mail address." *)
Definition not_valid_msg (s : pystr) : pystr :=
  s ++ lit " is not a valid mail address.".

(** The [assert] statement is the one of a run without [-O]. The message
    is only built when the assertion fails, and then the argument is a
    [str] ([re.match] has raised on anything else). *)
Definition validate_mail_address (am_i_a_mail_address : pyval)
  : result unit :=
  match re_match email_regex am_i_a_mail_address with
  | Raise e => Raise e
  | Ok true => Ok tt
  | Ok false =>
      match am_i_a_mail_address with
      | PStr s => Raise (AssertionError (not_valid_msg s))
      | _ => Raise (TypeError None)
      end
  end.

(** ** The objects of independentsoft.msg *)

(** Modelled from the spec: the role constants of the external message
    library, which is not part of this repository: primary and copy. *)
Inductive RecipientType := TO | CC.

(** Modelled from the spec: the display kind of an individual mail
    user. *)
Inductive DisplayType := DisplayType_MAIL_USER.

(** Modelled from the spec: the object kind of an individual mail
    user. *)
Inductive ObjectType := ObjectType_MAIL_USER.

(** Modelled from the spec: the status flag of a message not sent. *)
Inductive MessageFlag := UNSENT.

(** Modelled from the spec: the capability that the file has to be
    created. *)
Inductive StoreSupportMask := CREATE.

(** Modelled from the spec: the recipient object of the external message
    library, a record of the attributes the program assigns; [None] is an
    attribute the program has not assigned. *)
Record Recipient := {
  address_type : option pystr;
  display_type : option DisplayType;
  object_type : option ObjectType;
  display_name : option pyval;
  email_address : option pyval;
  recipient_type : option RecipientType
}.

(** Modelled from the spec: the message object of the external message
    library, with its settable fields and its appendable collections. *)
Record Message := {
  subject : option pystr;
  body_html_text : option pystr;
  body_rtf : option pybytes;
  display_to : option pystr;
  display_cc : option pystr;
  recipients : list Recipient;
  message_flags : list MessageFlag;
  store_support_masks : list StoreSupportMask
}.

(** Modelled from the spec: the object [Recipient()] returns, no
    attribute assigned yet. *)
Definition Recipient_blank : Recipient :=
  {| address_type := None; display_type := None; object_type := None;
     display_name := None; email_address := None; recipient_type := None |}.

(** Modelled from the spec: the object [Message()] returns, no field
    assigned yet and its collections empty. *)
Definition Message_blank : Message :=
  {| subject := None; body_html_text := None; body_rtf := None;
     display_to := None; display_cc := None; recipients := [];
     message_flags := []; store_support_masks := [] |}.

(** Attribute assignments, [r.name = v]. *)
Definition set_address_type v (r : Recipient) : Recipient :=
  {| address_type := Some v; display_type := display_type r;
     object_type := object_type r; display_name := display_name r;
     email_address := email_address r; recipient_type := recipient_type r |}.
Definition set_display_type v (r : Recipient) : Recipient :=
  {| address_type := address_type r; display_type := Some v;
     object_type := object_type r; display_name := display_name r;
     email_address := email_address r; recipient_type := recipient_type r |}.
Definition set_object_type v (r : Recipient) : Recipient :=
  {| address_type := address_type r; display_type := display_type r;
     object_type := Some v; display_name := display_name r;
     email_address := email_address r; recipient_type := recipient_type r |}.
Definition set_display_name v (r : Recipient) : Recipient :=
  {| address_type := address_type r; display_type := display_type r;
     object_type := object_type r; display_name := Some v;
     email_address := email_address r; recipient_type := recipient_type r |}.
Definition set_email_address v (r : Recipient) : Recipient :=
  {| address_type := address_type r; display_type := display_type r;
     object_type := object_type r; display_name := display_name r;
     email_address := Some v; recipient_type := recipient_type r |}.
Definition set_recipient_type v (r : Recipient) : Recipient :=
  {| address_type := address_type r; display_type := display_type r;
     object_type := object_type r; display_name := display_name r;
     email_address := email_address r; recipient_type := Some v |}.

(** Field assignments and appends, [m.name = v] and [m.name.append(v)]. *)
Definition set_subject v (m : Message) : Message :=
  {| subject := Some v; body_html_text := body_html_text m;
     body_rtf := body_rtf m; display_to := display_to m;
     display_cc := display_cc m; recipients := recipients m;
     message_flags := message_flags m;
     store_support_masks := store_support_masks m |}.
Definition set_body_html_text v (m : Message) : Message :=
  {| subject := subject m; body_html_text := Some v;
     body_rtf := body_rtf m; display_to := display_to m;
     display_cc := display_cc m; recipients := recipients m;
     message_flags := message_flags m;
     store_support_masks := store_support_masks m |}.
Definition set_body_rtf v (m : Message) : Message :=
  {| subject := subject m; body_html_text := body_html_text m;
     body_rtf := Some v; display_to := display_to m;
     display_cc := display_cc m; recipients := recipients m;
     message_flags := message_flags m;
     store_support_masks := store_support_masks m |}.
Definition set_display_to v (m : Message) : Message :=
  {| subject := subject m; body_html_text := body_html_text m;
     body_rtf := body_rtf m; display_to := Some v;
     display_cc := display_cc m; recipients := recipients m;
     message_flags := message_flags m;
     store_support_masks := store_support_masks m |}.
Definition set_display_cc v (m : Message) : Message :=
  {| subject := subject m; body_html_text := body_html_text m;
     body_rtf := body_rtf m; display_to := display_to m;
     display_cc := Some v; recipients := recipients m;
     message_flags := message_flags m;
     store_support_masks := store_support_masks m |}.
Definition recipients_append v (m : Message) : Message :=
  {| subject := subject m; body_html_text := body_html_text m;
     body_rtf := body_rtf m; display_to := display_to m;
     display_cc := display_cc m; recipients := recipients m ++ [v];
     message_flags := message_flags m;
     store_support_masks := store_support_masks m |}.
Definition message_flags_append v (m : Message) : Message :=
  {| subject := subject m; body_html_text := body_html_text m;
     body_rtf := body_rtf m; display_to := display_to m;
     display_cc := display_cc m; recipients := recipients m;
     message_flags := message_flags m ++ [v];
     store_support_masks := store_support_masks m |}.
Definition store_support_masks_append v (m : Message) : Message :=
  {| subject := subject m; body_html_text := body_html_text m;
     body_rtf := body_rtf m; display_to := display_to m;
     display_cc := display_cc m; recipients := recipients m;
     message_flags := message_flags m;
     store_support_masks := store_support_masks m ++ [v] |}.

(** ** The world and the monad of statements *)

(** A local date and time, as [datetime.now()] gives it. *)
Record datetime := {
  year : N; month : N; day : N; hour : N; minute : N; second : N
}.

(** What a call of [generate_mail] reads and changes: the clock, the
    files written by [save] (the latest first) and whether a path can be
    written, the number of [Recipient] objects constructed, and the
    [Message] object bound to the local variable [message]. *)
Record world := {
  clock : datetime;
  writable : pystr -> bool;
  disk : list (pystr * Message);
  recipients_constructed : nat;
  message : Message
}.

Definition with_message (m : Message) (w : world) : world :=
  {| clock := clock w; writable := writable w; disk := disk w;
     recipients_constructed := recipients_constructed w; message := m |}.

(** A statement: it returns or raises, and leaves a world either way. *)
Definition M (A : Type) : Type := world -> result A * world.

Definition ret {A} (a : A) : M A := fun w => (Ok a, w).
Definition raise {A} (e : exn) : M A := fun w => (Raise e, w).
Definition lift {A} (r : result A) : M A := fun w => (r, w).
Definition bind {A B} (c : M A) (k : A -> M B) : M B :=
  fun w =>
    match c w with
    | (Ok a, w') => k a w'
    | (Raise e, w') => (Raise e, w')
    end.

Declare Scope stmt_scope.
Delimit Scope stmt_scope with stmt.
Notation "x <- c ;; k" := (bind c (fun x => k))
  (at level 100, c at next level, right associativity) : stmt_scope.
Notation "c ;; k" := (bind c (fun _ => k))
  (at level 100, right associativity) : stmt_scope.
Local Open Scope stmt_scope.

(** [Recipient()] *)
Definition Recipient_new : M Recipient :=
  fun w =>
    (Ok Recipient_blank,
     {| clock := clock w; writable := writable w; disk := disk w;
        recipients_constructed := S (recipients_constructed w);
        message := message w |}).

(** [message = Message()] *)
Definition Message_new : M unit :=
  fun w => (Ok tt, with_message Message_blank w).

(** An assignment to a field of [message], or an append to one. *)
Definition on_message (f : Message -> Message) : M unit :=
  fun w => (Ok tt, with_message (f (message w)) w).

(** [datetime.now()] *)
Definition datetime_now : M datetime := fun w => (Ok (clock w), w).

(** Modelled from the spec: [message.save(filename)] of the external
    message library writes the message to the file of that name, or
    raises on an I/O failure. *)
Definition save (filename : pystr) : M unit :=
  fun w =>
    if writable w filename then
      (Ok tt,
       {| clock := clock w; writable := writable w;
          disk := (filename, message w) :: disk w;
          recipients_constructed := recipients_constructed w;
          message := message w |})
    else (Raise OSError, w).

(** ** prepare_recipients *)

Definition prepare_recipients (recipient_mail : pyval)
           (recipient_type : RecipientType) : M Recipient :=
  lift (validate_mail_address recipient_mail) ;;
  recipient <- Recipient_new ;;
  let recipient := set_address_type (lit "SMTP") recipient in
  let recipient := set_display_type DisplayType_MAIL_USER recipient in
  let recipient := set_object_type ObjectType_MAIL_USER recipient in
  let recipient := set_display_name recipient_mail recipient in
  let recipient := set_email_address recipient_mail recipient in
  let recipient := set_recipient_type recipient_type recipient in
  ret recipient.

(** ** generate_msg_filename *)

(** A number in decimal, padded with zeros on the left to [width]. *)
Definition zero_pad (width : nat) (n : N) : pystr :=
  let d := decimal n in
  repeat (digit_char 0) (width - List.length d) ++ d.

(** [t.strftime("%Y%m%d_%H%M%S")], for a year of four digits. *)
Definition strftime_Ymd_HMS (t : datetime) : pystr :=
  zero_pad 4 (year t) ++ zero_pad 2 (month t) ++ zero_pad 2 (day t)
    ++ [UNDERSCORE]
    ++ zero_pad 2 (hour t) ++ zero_pad 2 (minute t) ++ zero_pad 2 (second t).

(** [s.split(sep)] for a one-character [sep]: the pieces between the
    occurrences of [sep]; there is always a first piece. *)
Fixpoint split (sep : N) (s : pystr) : list pystr :=
  match s with
  | [] => [[]]
  | c :: s' =>
      if c =? sep then [] :: split sep s'
      else
        match split sep s' with
        | piece :: pieces => (c :: piece) :: pieces
        | [] => [[c]]
        end
  end.

(** [v.split(sep)] on a value: a method of [str]; [bytes] has it too but
    refuses a [str] separator; the other values have no such attribute. *)
Definition method_split (v : pyval) (sep : N) : result (list pystr) :=
  match v with
  | PStr s => Ok (split sep s)
  | PBytes _ => Raise (TypeError None)
  | _ => Raise AttributeError
  end.

(** [l[0]] *)
Definition item0 {A} (l : list A) : result A :=
  match l with
  | x :: _ => Ok x
  | [] => Raise IndexError
  end.

(** [c in v] for a one-character string [c]: a test on the characters of
    a [str]; a type error on [bytes], on a number and on None. *)
Definition contains (c : N) (v : pyval) : result bool :=
  match v with
  | PStr s => Ok (existsb (N.eqb c) s)
  | PList l =>
      Ok (existsb (fun x => match x with
                            | PStr [c'] => c' =? c
                            | _ => false
                            end) l)
  | _ => Raise (TypeError None)
  end.

Definition generate_msg_filename (recipients : pyval) (subject : pystr)
  : M pystr :=
  now <- datetime_now ;;
  let timestamp := strftime_Ymd_HMS now in
  recipients_str <-
    match recipients with
    | PList items =>
        first <- lift (item0 items) ;;
        pieces <- lift (method_split first AT) ;;
        first_recipient <- lift (item0 pieces) ;;
        if (1 <? List.length items)%nat
        then ret (first_recipient ++ lit "+others")
        else ret first_recipient
    | _ =>
        has_at <- lift (contains AT recipients) ;;
        if has_at then
          pieces <- lift (method_split recipients AT) ;;
          lift (item0 pieces)
        else
          match recipients with
          | PStr s => ret s
          | _ => raise (TypeError None) (* not reached: the test raised *)
          end
    end ;;
  let subject_clean := firstn 30 (replace SPACE [UNDERSCORE] subject) in
  let filename :=
    timestamp ++ [UNDERSCORE] ++ recipients_str ++ [UNDERSCORE]
      ++ subject_clean ++ lit ".msg" in
  ret filename.

(** ** generate_mail *)

(** [sep.join(items)]: every item has to be a [str]. *)
Fixpoint join (sep : pystr) (items : list pyval) : result pystr :=
  match items with
  | [] => Ok []
  | PStr s :: rest =>
      match rest with
      | [] => Ok s
      | _ :: _ =>
          match join sep rest with
          | Ok r => Ok (s ++ sep ++ r)
          | Raise e => Raise e
          end
      end
  | _ :: _ => Raise (TypeError None)
  end.

(** for item in items: acc.append(prepare_recipients(item, recipient_type)) *)
Fixpoint prepare_each (items : list pyval) (recipient_type : RecipientType)
         (acc : list Recipient) : M (list Recipient) :=
  match items with
  | [] => ret acc
  | item :: rest =>
      recipient <- prepare_recipients item recipient_type ;;
      prepare_each rest recipient_type (acc ++ [recipient])
  end.

(** for recipient in rs: message.recipients.append(recipient) *)
Fixpoint append_each (rs : list Recipient) : M unit :=
  match rs with
  | [] => ret tt
  | recipient :: rest =>
      on_message (recipients_append recipient) ;;
      append_each rest
  end.

(** [cc != ""] *)
Definition ne_empty_str (v : pyval) : bool :=
  match v with
  | PStr [] => false
  | _ => true
  end.

Definition to_type_msg : pystr :=
  lit "The variable 'to' must be an email address (str) or a list of email addresses (list).".
Definition cc_type_msg : pystr :=
  lit "The variable 'cc' must be an email address (str) or a list of email addresses (list).".

Definition rtf_preamble : pystr :=
  lit "{\rtf1\ansi\ansicpg1252\fromhtml1 \htmlrtf0 ".

Definition generate_mail (to cc : pyval) (subject body : pystr) : M unit :=
  Message_new ;;
  to_part <-
    match to with
    | PStr s =>
        recipient <- prepare_recipients to TO ;;
        ret ([] ++ [recipient], s)
    | PList items =>
        recipient_to <- prepare_each items TO [] ;;
        display_to <- lift (join (lit "; ") items) ;;
        ret (recipient_to, display_to)
    | _ => raise (TypeError (Some to_type_msg))
    end ;;
  let (recipient_to, display_to) := to_part in
  cc_part <-
    (if ne_empty_str cc then
       match cc with
       | PStr s =>
           recipient <- prepare_recipients cc CC ;;
           ret ([] ++ [recipient], s)
       | PList items =>
           recipient_cc <- prepare_each items CC [] ;;
           display_cc <- lift (join (lit "; ") items) ;;
           ret (recipient_cc, display_cc)
       | _ => raise (TypeError (Some cc_type_msg))
       end
     else ret ([], [])) ;;
  let (recipient_cc, display_cc) := cc_part in
  html_body <- lift (encode_html_characters body) ;;
  let html_body_with_rtf := rtf_preamble ++ html_body ++ lit "}" in
  rtf_body <- lift (of_option (encode_utf8 html_body_with_rtf)) ;;
  on_message (set_subject subject) ;;
  on_message (set_body_html_text html_body) ;;
  on_message (set_body_rtf rtf_body) ;;
  on_message (set_display_to display_to) ;;
  on_message (set_display_cc display_cc) ;;
  append_each recipient_to ;;
  append_each recipient_cc ;;
  on_message (message_flags_append UNSENT) ;;
  on_message (store_support_masks_append CREATE) ;;
  filename <- generate_msg_filename to subject ;;
  save filename.

(** Running a statement: what it returned or raised, and the world left. *)
Definition outcome {A} (c : M A) (w : world) : result A := fst (c w).
Definition after {A} (c : M A) (w : world) : world := snd (c w).

(** ** The words of the specification *)

(** The character-by-character reading of the HTML encoding: a numeric
    character reference for a code point above the ASCII range, [<br>]
    for a line feed, the character itself otherwise. *)
Definition html_char (c : N) : pystr :=
  if 128 <=? c then xmlcharref c
  else if c =? LF then lit "<br>"
  else [c].

(** The same reading with the printable ASCII range, U+0020 to U+007E,
    in place of the ASCII range. *)
Definition printable (c : N) : bool := (32 <=? c) && (c <=? 126).
Definition html_char_printable (c : N) : pystr :=
  if c =? LF then lit "<br>"
  else if printable c then [c]
  else xmlcharref c.

(** The canonical shape of an address, over the whole string:
    local part, [@], domain, [.], and a last label of two letters or
    more. *)
Definition canonical_shape (s : pystr) : Prop :=
  exists l d t,
    s = l ++ AT :: d ++ DOT :: t
    /\ l <> [] /\ Forall (fun c => cls_local c = true) l
    /\ d <> [] /\ Forall (fun c => cls_domain c = true) d
    /\ (2 <= List.length t)%nat /\ Forall (fun c => cls_alpha c = true) t.

Definition missing_at (s : pystr) : Prop := ~ In AT s.

(** After an [@] of the string no dot follows. *)
Definition missing_domain_dot (s : pystr) : Prop :=
  exists l d, s = l ++ AT :: d /\ ~ In DOT d.

(** Before an [@] of the string stands a character outside
    [A-Za-z0-9._%+-]. *)
Definition bad_local_char (s : pystr) : Prop :=
  exists l d c, s = l ++ AT :: d /\ In c l /\ cls_local c = false.

(** An address the validator accepts. *)
Definition accepted (v : pyval) : bool :=
  match v with
  | PStr s => match_here email_regex true s
  | _ => false
  end.

(** A recipient specification every check passes: an accepted address,
    or a list of accepted addresses. *)
Definition valid_recipients (v : pyval) : bool :=
  match v with
  | PStr _ => accepted v
  | PList items => forallb accepted items
  | _ => false
  end.

(** What [cc] may be: the empty string, or valid recipients. *)
Definition valid_cc (cc : pyval) : bool :=
  negb (ne_empty_str cc) || valid_recipients cc.

Definition str_or_list (v : pyval) : bool :=
  match v with
  | PStr _ | PList _ => true
  | _ => false
  end.

(** The addresses of a recipient specification, in order. *)
Definition addresses (v : pyval) : list pyval :=
  match v with
  | PStr [] => []
  | PStr _ => [v]
  | PList items => items
  | _ => []
  end.

Definition str_of (v : pyval) : pystr :=
  match v with
  | PStr s => s
  | _ => []
  end.

Fixpoint joined (sep : pystr) (l : list pystr) : pystr :=
  match l with
  | [] => []
  | [s] => s
  | s :: rest => s ++ sep ++ joined sep rest
  end.

(** The display string of a recipient specification. *)
Definition display (v : pyval) : pystr :=
  match v with
  | PStr s => s
  | PList items => joined (lit "; ") (map str_of items)
  | _ => []
  end.

(** The recipient record of an address in a role. *)
Definition mail_user (role : RecipientType) (address : pyval) : Recipient :=
  {| address_type := Some (lit "SMTP");
     display_type := Some DisplayType_MAIL_USER;
     object_type := Some ObjectType_MAIL_USER;
     display_name := Some address;
     email_address := Some address;
     recipient_type := Some role |}.

(** The substring before the first [@]. *)
Fixpoint before_at (s : pystr) : pystr :=
  match s with
  | [] => []
  | c :: s' => if c =? AT then [] else c :: before_at s'
  end.

(** Every space replaced by an underscore, then the first 30 characters. *)
Definition subject_tag (subject : pystr) : pystr :=
  firstn 30 (map (fun c => if c =? SPACE then UNDERSCORE else c) subject).

(** timestamp, recipient tag and subject tag, joined by underscores, and
    the extension. *)
Definition msg_filename (t : datetime) (tag subject : pystr) : pystr :=
  strftime_Ymd_HMS t ++ lit "_" ++ tag ++ lit "_" ++ subject_tag subject
    ++ lit ".msg".

(** The world with [n] more [Recipient] objects constructed and [m] as
    the message. *)
Definition world_with (n : nat) (m : Message) (w : world) : world :=
  {| clock := clock w; writable := writable w; disk := disk w;
     recipients_constructed := n + recipients_constructed w;
     message := m |}.

(** A world to run the examples in: 2024-01-02 03:04:05, an empty disk
    where every path can be written. *)
Definition example_world : world :=
  {| clock := {| year := 2024; month := 1; day := 2;
                 hour := 3; minute := 4; second := 5 |};
     writable := fun _ => true;
     disk := [];
     recipients_constructed := 0;
     message := Message_blank |}.

(** The block of [generate_mail] that turns [to], or [cc], into its
    recipients and its display string: the same statements for both, up
    to the role and the message of the type error. *)
Definition recipients_block (role : RecipientType) (type_msg : pystr)
           (v : pyval) : M (list Recipient * pystr) :=
  match v with
  | PStr s =>
      recipient <- prepare_recipients v role ;;
      ret ([] ++ [recipient], s)
  | PList items =>
      rs <- prepare_each items role [] ;;
      d <- lift (join (lit "; ") items) ;;
      ret (rs, d)
  | _ => raise (TypeError (Some type_msg))
  end.

(** The statements of [generate_mail] after both blocks. *)
Definition populate_and_save (to : pyval) (subject body : pystr)
           (recipient_to : list Recipient) (display_to : pystr)
           (recipient_cc : list Recipient) (display_cc : pystr) : M unit :=
  html_body <- lift (encode_html_characters body) ;;
  let html_body_with_rtf := rtf_preamble ++ html_body ++ lit "}" in
  rtf_body <- lift (of_option (encode_utf8 html_body_with_rtf)) ;;
  on_message (set_subject subject) ;;
  on_message (set_body_html_text html_body) ;;
  on_message (set_body_rtf rtf_body) ;;
  on_message (set_display_to display_to) ;;
  on_message (set_display_cc display_cc) ;;
  append_each recipient_to ;;
  append_each recipient_cc ;;
  on_message (message_flags_append UNSENT) ;;
  on_message (store_support_masks_append CREATE) ;;
  filename <- generate_msg_filename to subject ;;
  save filename.

(** The message [generate_mail] has assembled when it derives the file
    name. *)
Definition assembled (to cc : pyval) (subject body : pystr) : Message :=
  let html := flat_map html_char body in
  {| subject := Some subject;
     body_html_text := Some html;
     body_rtf := Some (rtf_preamble ++ html ++ lit "}");
     display_to := Some (display to);
     display_cc := Some (display cc);
     recipients :=
       map (mail_user TO) (addresses to) ++ map (mail_user CC) (addresses cc);
     message_flags := [UNSENT];
     store_support_masks := [CREATE] |}.

(** The errors of the checks on [to] and [cc]: the assertion of the
    validator and the type errors. *)
Definition check_error (e : exn) : bool :=
  match e with
  | AssertionError _ | TypeError _ => true
  | _ => false
  end.

(** The last two statements: the file name, and the save. *)
Definition name_and_save (to : pyval) (subject : pystr) : M unit :=
  filename <- generate_msg_filename to subject ;; save filename.

(** The position after the characters [a] of a repetition: the beginning
    of the string only when none was taken. *)
Definition bos_after (a : pystr) (bos : bool) : bool :=
  match a with
  | [] => bos
  | _ :: _ => false
  end.

(** The recipient tag of a file name, for a string and for a list that
    begins with a string. *)
Definition recipient_tag (to : pyval) : pystr :=
  match to with
  | PStr s => if existsb (N.eqb AT) s then before_at s else s
  | PList (PStr first :: others) =>
      before_at first
        ++ match others with [] => [] | _ :: _ => lit "+others" end
  | _ => []
  end.

(** An ASCII character other than the line feed. *)
Definition plain (c : N) : Prop := c < 128 /\ c <> LF.

(** * Properties *)

(** ** The HTML encoding *)

Lemma uint_chars_range (u : Decimal.uint) :
  Forall (fun c => 48 <= c <= 57) (uint_chars u).
Proof.
  induction u; simpl; constructor; auto; unfold digit_char; lia.
Qed.

Lemma xmlcharref_range (c : N) :
  Forall (fun x => 35 <= x <= 59) (xmlcharref c).
Proof.
  unfold xmlcharref, decimal. simpl.
  repeat constructor; try lia.
  apply Forall_app. split.
  - eapply Forall_impl; [| apply uint_chars_range]. simpl. lia.
  - repeat constructor; simpl; lia.
Qed.

Lemma decode_utf8_ascii (b : pybytes) :
  Forall (fun x => x < 128) b -> decode_utf8 b = Some b.
Proof.
  induction 1 as [| x b Hx _ IH]; [reflexivity |].
  simpl. apply N.ltb_lt in Hx. rewrite Hx, IH. reflexivity.
Qed.

Lemma encode_utf8_ascii (s : pystr) :
  Forall (fun x => x < 128) s -> encode_utf8 s = Some s.
Proof.
  induction 1 as [| x s Hx _ IH]; [reflexivity |].
  simpl. unfold encode_utf8_char. apply N.ltb_lt in Hx.
  rewrite Hx, IH. reflexivity.
Qed.

Lemma encode_ascii_xmlcharrefreplace_ascii (s : pystr) :
  Forall (fun x => x < 128) (encode_ascii_xmlcharrefreplace s).
Proof.
  induction s as [| c s IH]; simpl; [constructor |].
  apply Forall_app. split; [| exact IH].
  destruct (c <? 128) eqn:Hc.
  - constructor; [apply N.ltb_lt; exact Hc | constructor].
  - eapply Forall_impl; [| apply xmlcharref_range]. simpl. lia.
Qed.

Lemma replace_app (old : N) (new a b : pystr) :
  replace old new (a ++ b) = replace old new a ++ replace old new b.
Proof.
  induction a as [| c a IH]; simpl; [reflexivity |].
  rewrite IH, app_assoc. reflexivity.
Qed.

Lemma replace_absent (old : N) (new s : pystr) :
  Forall (fun x => x <> old) s -> replace old new s = s.
Proof.
  induction 1 as [| x s Hx _ IH]; simpl; [reflexivity |].
  apply N.eqb_neq in Hx. rewrite Hx, IH. reflexivity.
Qed.

Lemma replace_xmlcharref (c : N) :
  replace LF (lit "<br>") (xmlcharref c) = xmlcharref c.
Proof.
  apply replace_absent.
  eapply Forall_impl; [| apply xmlcharref_range].
  unfold LF. simpl. lia.
Qed.

Lemma replace_encoded (s : pystr) :
  replace LF (lit "<br>") (encode_ascii_xmlcharrefreplace s)
  = flat_map html_char s.
Proof.
  induction s as [| c s IH]; [reflexivity |].
  cbn [encode_ascii_xmlcharrefreplace flat_map].
  rewrite replace_app, IH. f_equal.
  unfold html_char.
  destruct (c <? 128) eqn:Hlt.
  - apply N.ltb_lt in Hlt.
    assert (Hge : (128 <=? c) = false) by (apply N.leb_gt; exact Hlt).
    rewrite Hge. simpl. destruct (c =? LF); reflexivity.
  - apply N.ltb_ge in Hlt.
    assert (Hge : (128 <=? c) = true) by (apply N.leb_le; exact Hlt).
    rewrite Hge. apply replace_xmlcharref.
Qed.

Lemma encode_html_characters_total (s : pystr) :
  encode_html_characters s = Ok (flat_map html_char s).
Proof.
  unfold encode_html_characters.
  rewrite decode_utf8_ascii by apply encode_ascii_xmlcharrefreplace_ascii.
  rewrite replace_encoded. reflexivity.
Qed.

Lemma html_char_ascii (c : N) : Forall (fun x => x < 128) (html_char c).
Proof.
  unfold html_char.
  destruct (128 <=? c) eqn:Hge.
  - eapply Forall_impl; [| apply xmlcharref_range]. simpl. lia.
  - apply N.leb_gt in Hge. destruct (c =? LF).
    + repeat constructor.
    + constructor; [exact Hge | constructor].
Qed.

Lemma flat_map_html_char_ascii (s : pystr) :
  Forall (fun x => x < 128) (flat_map html_char s).
Proof.
  induction s as [| c s IH]; simpl; [constructor |].
  apply Forall_app. split; [apply html_char_ascii | exact IH].
Qed.

(** C3, as amended: for every input string the HTML encoding replaces
    every character above the ASCII range (code point 128 and more) with
    its decimal numeric character reference, replaces every line feed
    with [<br>], and alters no other character: the characters [<], [&]
    and the double quote stay as they are, and so do the ASCII control
    characters other than the line feed; the encoding of "héllo\nworld"
    is "h&#233;llo<br>world". *)
Theorem encode_html_characters_charwise :
  (forall s : pystr, encode_html_characters s = Ok (flat_map html_char s))
  /\ encode_html_characters (lit "<&" ++ [34] ++ lit ">")
     = Ok (lit "<&" ++ [34] ++ lit ">")
  /\ encode_html_characters [0; 9; 13; 127] = Ok [0; 9; 13; 127]
  /\ encode_html_characters
       (lit "h" ++ [233] ++ lit "llo" ++ [LF] ++ lit "world")
     = Ok (lit "h&#233;llo<br>world").
Proof.
  split; [exact encode_html_characters_total |].
  repeat split; reflexivity.
Qed.

(** C3, as stated, fails on a tab: U+0009 is outside the printable ASCII
    range and is not a line feed, and the encoding leaves it as it is
    where the claim has the reference [&#9;]. *)
Lemma encode_html_characters_tab_unchanged :
  encode_html_characters [9] = Ok [9]
  /\ flat_map html_char_printable [9] = lit "&#9;"
  /\ encode_html_characters [9] <> Ok (flat_map html_char_printable [9]).
Proof.
  split; [reflexivity |]. split; [reflexivity |]. discriminate.
Qed.

(** ** The address validator *)

Section Repetition.
Variable cls : N -> bool.
Variable k : bool -> pystr -> bool.

Lemma match_rep_complete (a : pystr) :
  forall (min : nat) (bos : bool) (b : pystr),
    Forall (fun c => cls c = true) a ->
    (min <= List.length a)%nat ->
    k (bos_after a bos) b = true ->
    match_rep cls k min bos (a ++ b) = true.
Proof.
  induction a as [| x a IH]; intros min bos b Hall Hmin Hk.
  - simpl in Hmin. assert (min = 0%nat) by lia. subst min.
    simpl in *. destruct b; simpl; rewrite Hk.
    + reflexivity.
    + apply orb_true_r.
  - inversion Hall as [| ? ? Hx Ha]; subst.
    cbn [app match_rep]. rewrite Hx.
    rewrite (IH (Nat.pred min) false b Ha).
    + reflexivity.
    + simpl in Hmin. lia.
    + destruct a; exact Hk.
Qed.

Lemma match_rep_sound (s : pystr) :
  forall (min : nat) (bos : bool),
    match_rep cls k min bos s = true ->
    exists a b,
      s = a ++ b
      /\ Forall (fun c => cls c = true) a
      /\ (min <= List.length a)%nat
      /\ k (bos_after a bos) b = true.
Proof.
  induction s as [| c s IH]; intros min bos H.
  - simpl in H. apply andb_true_iff in H. destruct H as [Hmin Hk].
    apply Nat.eqb_eq in Hmin. subst min.
    exists [], []. repeat split; auto.
  - cbn [match_rep] in H. apply orb_true_iff in H.
    destruct H as [H | H]; apply andb_true_iff in H.
    + destruct H as [Hc Hrest].
      destruct (IH _ _ Hrest) as (a & b & Hs & Ha & Hlen & Hk).
      exists (c :: a), b. repeat split.
      * simpl. rewrite Hs. reflexivity.
      * constructor; assumption.
      * simpl. lia.
      * destruct a; exact Hk.
    + destruct H as [Hmin Hk].
      apply Nat.eqb_eq in Hmin. subst min.
      exists [], (c :: s). repeat split; auto.
Qed.
End Repetition.

Lemma at_eol_cases (s : pystr) : at_eol s = true <-> s = [] \/ s = [LF].
Proof.
  destruct s as [| c [| c' s]]; simpl; split; intros H; auto.
  - right. apply N.eqb_eq in H. subst. reflexivity.
  - destruct H as [H | H]; [discriminate |].
    inversion H. reflexivity.
  - discriminate.
  - destruct H; discriminate.
Qed.

Lemma nonempty_length (l : pystr) (n : nat) :
  (S n <= List.length l)%nat -> l <> [].
Proof. destruct l; simpl; [lia | discriminate]. Qed.

(** What the pattern accepts: the canonical shape, with or without a
    line feed after it. *)
Lemma email_regex_sound (s : pystr) :
  match_here email_regex true s = true ->
  exists l d t e,
    s = l ++ AT :: d ++ DOT :: t ++ e
    /\ l <> [] /\ Forall (fun c => cls_local c = true) l
    /\ d <> [] /\ Forall (fun c => cls_domain c = true) d
    /\ (2 <= List.length t)%nat /\ Forall (fun c => cls_alpha c = true) t
    /\ (e = [] \/ e = [LF]).
Proof.
  unfold email_regex. cbn [match_here andb]. intros H.
  apply match_rep_sound in H.
  destruct H as (l & r1 & Hs & Hl & Hlen & H).
  destruct r1 as [| x r2]; [discriminate |].
  apply andb_true_iff in H. destruct H as [Hx H].
  apply N.eqb_eq in Hx. subst x.
  apply match_rep_sound in H.
  destruct H as (d & r3 & Hr2 & Hd & Hdlen & H).
  destruct r3 as [| y r4]; [destruct d; discriminate |].
  assert (H' : (y =? DOT) && match_rep cls_alpha (match_here [Eol]) 2 false r4
               = true) by (destruct d; exact H).
  clear H. apply andb_true_iff in H'. destruct H' as [Hy H].
  apply N.eqb_eq in Hy. subst y.
  apply match_rep_sound in H.
  destruct H as (t & e & Hr4 & Ht & Htlen & H).
  assert (He : at_eol e = true).
  { destruct t; cbn [bos_after match_here] in H;
      apply andb_true_iff in H; apply H. }
  apply at_eol_cases in He.
  exists l, d, t, e. subst s r2 r4.
  repeat split; auto; eapply nonempty_length; eassumption.
Qed.

Lemma email_regex_complete (s : pystr) :
  canonical_shape s -> match_here email_regex true s = true.
Proof.
  intros (l & d & t & Hs & Hl0 & Hl & Hd0 & Hd & Ht2 & Ht). subst s.
  unfold email_regex. cbn [match_here andb].
  apply match_rep_complete; auto.
  { destruct l; [congruence | simpl; lia]. }
  destruct l as [| c l]; [congruence |]. cbn [bos_after].
  rewrite N.eqb_refl. cbn [andb].
  apply match_rep_complete; auto.
  { destruct d; [congruence | simpl; lia]. }
  destruct d as [| c' d]; [congruence |]. cbn [bos_after].
  rewrite N.eqb_refl. cbn [andb].
  rewrite <- (app_nil_r t).
  apply match_rep_complete; auto.
Qed.

(** A string with a single occurrence of [a] splits around it in one
    way. *)
Lemma split_around_unique (a : N) (l : pystr) :
  forall x l' x',
    l ++ a :: x = l' ++ a :: x' ->
    ~ In a l -> ~ In a x ->
    l = l' /\ x = x'.
Proof.
  induction l as [| c l IH]; intros x l' x' Heq Hl Hx.
  - destruct l' as [| c' l'].
    + inversion Heq. auto.
    + simpl in Heq. inversion Heq; subst.
      exfalso. apply Hx. apply in_or_app. right. left. reflexivity.
  - destruct l' as [| c' l'].
    + simpl in Heq. inversion Heq; subst.
      exfalso. apply Hl. left. reflexivity.
    + simpl in Heq. inversion Heq; subst.
      destruct (IH x l' x' H1) as [-> ->]; auto.
      intros Hin. apply Hl. right. exact Hin.
Qed.

Lemma class_excludes (cls : N -> bool) (a : N) (l : pystr) :
  cls a = false -> Forall (fun c => cls c = true) l -> ~ In a l.
Proof.
  intros Ha Hall Hin.
  rewrite Forall_forall in Hall. apply Hall in Hin. congruence.
Qed.

(** In an accepted string the [@] is the only one: any split around an
    [@] is the one of the pattern. *)
Lemma email_regex_split (s l' x' : pystr) :
  match_here email_regex true s = true ->
  s = l' ++ AT :: x' ->
  Forall (fun c => cls_local c = true) l' /\ In DOT x'.
Proof.
  intros Hm Hs.
  destruct (email_regex_sound s Hm)
    as (l & d & t & e & Hs' & _ & Hl & _ & Hd & _ & Ht & He).
  rewrite Hs' in Hs.
  apply split_around_unique in Hs.
  - destruct Hs as [<- <-]. split; [exact Hl |].
    apply in_or_app. right. left. reflexivity.
  - apply (class_excludes cls_local); [reflexivity | exact Hl].
  - intros Hin. apply in_app_or in Hin. destruct Hin as [Hin | Hin].
    + revert Hin. apply (class_excludes cls_domain); [reflexivity | exact Hd].
    + destruct Hin as [Hin | Hin]; [discriminate |].
      apply in_app_or in Hin. destruct Hin as [Hin | Hin].
      * revert Hin.
        apply (class_excludes cls_alpha); [reflexivity | exact Ht].
      * destruct He as [-> | ->]; simpl in Hin; [tauto |].
        destruct Hin as [Hin | []]. discriminate.
Qed.

Lemma validate_accepts (s : pystr) :
  match_here email_regex true s = true ->
  validate_mail_address (PStr s) = Ok tt.
Proof.
  intros H. unfold validate_mail_address, re_match. rewrite H. reflexivity.
Qed.

Lemma validate_rejects (s : pystr) :
  match_here email_regex true s = false ->
  validate_mail_address (PStr s) = Raise (AssertionError (not_valid_msg s)).
Proof.
  intros H. unfold validate_mail_address, re_match. rewrite H. reflexivity.
Qed.

(** C2: every string of the canonical shape, anchored at both ends, is
    accepted silently; every string without an [@], without a dot after
    its [@], or with a character outside [A-Za-z0-9._%+-] before its [@]
    is rejected by an assertion error whose message begins with the
    string itself. *)
Theorem validate_mail_address_shape (s : pystr) :
  (canonical_shape s -> validate_mail_address (PStr s) = Ok tt)
  /\ (missing_at s \/ missing_domain_dot s \/ bad_local_char s ->
      validate_mail_address (PStr s)
      = Raise (AssertionError (s ++ lit " is not a valid mail address."))).
Proof.
  split.
  - intros H. apply validate_accepts, email_regex_complete, H.
  - intros H. apply validate_rejects.
    destruct (match_here email_regex true s) eqn:Hm; [exfalso | reflexivity].
    destruct H as [H | [H | H]].
    + destruct (email_regex_sound s Hm) as (l & d & t & e & Hs & _).
      apply H. rewrite Hs. apply in_or_app. right. left. reflexivity.
    + destruct H as (l & d & Hs & Hdot).
      apply Hdot. eapply email_regex_split; eassumption.
    + destruct H as (l & d & c & Hs & Hin & Hc).
      destruct (email_regex_split _ _ Hm Hs) as [Hl _].
      rewrite Forall_forall in Hl. apply Hl in Hin. congruence.
Qed.

Lemma canonical_shape_example : canonical_shape (lit "a@b.com").
Proof.
  exists (lit "a"), (lit "b"), (lit "com").
  repeat split; try discriminate; try (simpl; lia); repeat constructor.
Defined.

Lemma missing_at_example : missing_at (lit "ab.com").
Proof.
  unfold missing_at. simpl. intros H.
  repeat (destruct H as [H | H]; [discriminate |]). exact H.
Defined.

(** C2 at "a@b.com", of the canonical shape, and at "ab.com", which has
    no [@]. *)
Lemma validate_mail_address_shape_witness :
  (canonical_shape (lit "a@b.com")
   /\ validate_mail_address (PStr (lit "a@b.com")) = Ok tt)
  /\ (missing_at (lit "ab.com")
      /\ validate_mail_address (PStr (lit "ab.com"))
         = Raise (AssertionError (lit "ab.com is not a valid mail address."))).
Proof.
  split; split.
  - exact canonical_shape_example.
  - apply (proj1 (validate_mail_address_shape (lit "a@b.com"))).
    exact canonical_shape_example.
  - exact missing_at_example.
  - apply (proj2 (validate_mail_address_shape (lit "ab.com"))).
    left. exact missing_at_example.
Defined.

(** The [$] of the pattern lets one line feed pass after the address. *)
Lemma validate_mail_address_trailing_line_feed :
  validate_mail_address (PStr (lit "a@b.com" ++ [LF])) = Ok tt.
Proof. reflexivity. Qed.

(** ** The file name *)

Lemma split_head (s : pystr) :
  exists pieces, split AT s = before_at s :: pieces.
Proof.
  induction s as [| c s [pieces IH]]; simpl.
  - exists []. reflexivity.
  - destruct (c =? AT).
    + eexists. reflexivity.
    + rewrite IH. eexists. reflexivity.
Qed.

Lemma before_at_absent (s : pystr) :
  existsb (N.eqb AT) s = false -> before_at s = s.
Proof.
  induction s as [| c s IH]; [reflexivity |].
  cbn [existsb before_at].
  intros H. apply orb_false_iff in H. destruct H as [Hc Hs].
  rewrite N.eqb_sym, Hc, IH by exact Hs. reflexivity.
Qed.

Lemma replace_one_for_one (old new : N) (s : pystr) :
  replace old [new] s = map (fun c => if c =? old then new else c) s.
Proof.
  induction s as [| c s IH]; simpl; [reflexivity |].
  rewrite IH. destruct (c =? old); reflexivity.
Qed.

Lemma generate_msg_filename_list (first : pystr) (rest : list pyval)
      (subject : pystr) (w : world) :
  generate_msg_filename (PList (PStr first :: rest)) subject w
  = (Ok (msg_filename (clock w)
           (before_at first
              ++ match rest with [] => [] | _ :: _ => lit "+others" end)
           subject), w).
Proof.
  unfold generate_msg_filename, msg_filename, subject_tag.
  rewrite replace_one_for_one.
  unfold bind, datetime_now, lift, ret. cbn [item0 method_split].
  destruct (split_head first) as [pieces ->]. cbn [item0].
  destruct rest as [| second rest]; cbn [List.length Nat.ltb Nat.leb].
  - rewrite app_nil_r. reflexivity.
  - reflexivity.
Qed.

Lemma generate_msg_filename_str (s subject : pystr) (w : world) :
  generate_msg_filename (PStr s) subject w
  = (Ok (msg_filename (clock w)
           (if existsb (N.eqb AT) s then before_at s else s) subject), w).
Proof.
  unfold generate_msg_filename, msg_filename, subject_tag.
  rewrite replace_one_for_one.
  unfold bind, datetime_now, lift, ret. cbn [contains method_split].
  destruct (existsb (N.eqb AT) s).
  - destruct (split_head s) as [pieces ->]. reflexivity.
  - reflexivity.
Qed.

Lemma generate_msg_filename_empty_list (subject : pystr) (w : world) :
  generate_msg_filename (PList []) subject w = (Raise IndexError, w).
Proof. reflexivity. Qed.

(** C5: the file name is the timestamp, the recipient tag and the subject
    tag joined by underscores, with the extension [.msg].  The tag of a
    list is what stands before the [@] in its first element, followed by
    [+others] exactly when the list has more elements; the tag of a
    string is what stands before its [@] when it has one and the string
    itself otherwise; the subject tag is the subject with underscores
    for spaces, cut to 30 characters.  For ["a@x.com","b@y.com"] and
    "Hello World" at 2024-01-02 03:04:05 the name is
    "20240102_030405_a+others_Hello_World.msg". *)
Theorem generate_msg_filename_format :
  (forall (first : pystr) (others : list pyval) (subject : pystr) (w : world),
      outcome (generate_msg_filename (PList (PStr first :: others)) subject) w
      = Ok (strftime_Ymd_HMS (clock w) ++ lit "_"
            ++ (before_at first
                ++ match others with [] => [] | _ :: _ => lit "+others" end)
            ++ lit "_" ++ subject_tag subject ++ lit ".msg"))
  /\ (forall (s subject : pystr) (w : world),
         outcome (generate_msg_filename (PStr s) subject) w
         = Ok (strftime_Ymd_HMS (clock w) ++ lit "_"
               ++ (if existsb (N.eqb AT) s then before_at s else s)
               ++ lit "_" ++ subject_tag subject ++ lit ".msg"))
  /\ outcome
       (generate_msg_filename
          (PList [PStr (lit "a@x.com"); PStr (lit "b@y.com")])
          (lit "Hello World"))
       example_world
     = Ok (lit "20240102_030405_a+others_Hello_World.msg").
Proof.
  split; [| split].
  - intros. unfold outcome. rewrite generate_msg_filename_list. reflexivity.
  - intros. unfold outcome. rewrite generate_msg_filename_str. reflexivity.
  - reflexivity.
Qed.

(** ** Recipients *)

Lemma accepted_str (v : pyval) :
  accepted v = true ->
  exists c s, v = PStr (c :: s) /\ match_here email_regex true (c :: s) = true.
Proof.
  destruct v as [s | | | |]; try discriminate.
  destruct s as [| c s]; [discriminate |].
  intros H. exists c, s. split; [reflexivity | exact H].
Qed.

Lemma prepare_recipients_accepted (v : pyval) (role : RecipientType)
      (w : world) :
  accepted v = true ->
  prepare_recipients v role w
  = (Ok (mail_user role v), world_with 1 (message w) w).
Proof.
  intros H. destruct (accepted_str v H) as (c & s & -> & Hm).
  unfold prepare_recipients, bind, lift.
  rewrite (validate_accepts _ Hm). reflexivity.
Qed.

Lemma validate_not_accepted (v : pyval) :
  accepted v = false ->
  exists e, validate_mail_address v = Raise e /\ check_error e = true.
Proof.
  destruct v as [s | | | |]; intros H;
    try (eexists; split; reflexivity).
  exists (AssertionError (not_valid_msg s)). split; [| reflexivity].
  apply validate_rejects. exact H.
Qed.

Lemma prepare_recipients_not_accepted (v : pyval) (role : RecipientType)
      (w : world) :
  accepted v = false ->
  exists e, prepare_recipients v role w = (Raise e, w)
            /\ check_error e = true.
Proof.
  intros H. destruct (validate_not_accepted v H) as (e & He & Hc).
  exists e. split; [| exact Hc].
  unfold prepare_recipients, bind, lift. rewrite He. reflexivity.
Qed.

Lemma world_with_0 (w : world) : world_with 0 (message w) w = w.
Proof. destruct w. reflexivity. Qed.

Lemma prepare_each_accepted (role : RecipientType) (items : list pyval) :
  forall (acc : list Recipient) (w : world),
    forallb accepted items = true ->
    prepare_each items role acc w
    = (Ok (acc ++ map (mail_user role) items),
       world_with (List.length items) (message w) w).
Proof.
  induction items as [| item items IH]; intros acc w H.
  - simpl. rewrite app_nil_r, world_with_0. reflexivity.
  - cbn [forallb] in H. apply andb_true_iff in H. destruct H as [Hi Hr].
    cbn [prepare_each]. unfold bind at 1.
    rewrite (prepare_recipients_accepted _ _ _ Hi).
    rewrite (IH _ _ Hr). cbn [message world_with map List.length].
    rewrite <- app_assoc. f_equal.
    unfold world_with. simpl. f_equal. lia.
Qed.

Lemma prepare_each_not_accepted (role : RecipientType) (items : list pyval) :
  forall (acc : list Recipient) (w : world),
    forallb accepted items = false ->
    exists e n,
      prepare_each items role acc w
      = (Raise e, world_with n (message w) w)
      /\ check_error e = true.
Proof.
  induction items as [| item items IH]; intros acc w H; [discriminate |].
  cbn [forallb] in H. cbn [prepare_each]. unfold bind at 1.
  destruct (accepted item) eqn:Hi.
  - rewrite (prepare_recipients_accepted _ _ _ Hi).
    destruct (IH (acc ++ [mail_user role item])
                 (world_with 1 (message w) w) H) as (e & n & -> & Hc).
    exists e, (1 + n)%nat. split; [| exact Hc].
    cbn [message world_with]. f_equal.
    unfold world_with. simpl. f_equal. lia.
  - destruct (prepare_recipients_not_accepted item role w Hi)
      as (e & -> & Hc).
    exists e, 0%nat. rewrite world_with_0. split; [reflexivity | exact Hc].
Qed.

Lemma join_accepted (sep : pystr) (items : list pyval) :
  forallb accepted items = true ->
  join sep items = Ok (joined sep (map str_of items)).
Proof.
  induction items as [| item items IH]; intros H; [reflexivity |].
  cbn [forallb] in H. apply andb_true_iff in H. destruct H as [Hi Hr].
  destruct (accepted_str item Hi) as (c & s & -> & _).
  destruct items as [| item' items]; [reflexivity |].
  cbn [join]. cbn [join] in IH. rewrite (IH Hr). reflexivity.
Qed.

Lemma recipients_block_valid (role : RecipientType) (type_msg : pystr)
      (v : pyval) (w : world) :
  valid_recipients v = true ->
  recipients_block role type_msg v w
  = (Ok (map (mail_user role) (addresses v), display v),
     world_with (List.length (addresses v)) (message w) w).
Proof.
  destruct v as [s | items | | |]; try discriminate; intros H.
  - destruct (accepted_str _ H) as (c & s' & Heq & _).
    injection Heq as ->.
    unfold recipients_block, bind.
    rewrite (prepare_recipients_accepted _ _ _ H). reflexivity.
  - unfold recipients_block, bind, lift. cbn [valid_recipients] in H.
    rewrite (prepare_each_accepted _ _ _ _ H).
    rewrite (join_accepted _ _ H). reflexivity.
Qed.

Lemma recipients_block_invalid (role : RecipientType) (type_msg : pystr)
      (v : pyval) (w : world) :
  valid_recipients v = false ->
  exists e n,
    recipients_block role type_msg v w
    = (Raise e, world_with n (message w) w)
    /\ check_error e = true.
Proof.
  destruct v as [s | items | | |]; intros H;
    try (exists (TypeError (Some type_msg)), 0%nat;
         rewrite world_with_0; split; reflexivity).
  - destruct (prepare_recipients_not_accepted _ role w H) as (e & He & Hc).
    exists e, 0%nat. rewrite world_with_0. split; [| exact Hc].
    unfold recipients_block, bind. rewrite He. reflexivity.
  - destruct (prepare_each_not_accepted role items [] w H)
      as (e & n & He & Hc).
    exists e, n. split; [| exact Hc].
    unfold recipients_block, bind. rewrite He. reflexivity.
Qed.

Lemma validate_ok_accepted (s : pystr) :
  validate_mail_address (PStr s) = Ok tt -> accepted (PStr s) = true.
Proof.
  unfold validate_mail_address, re_match, accepted.
  destruct (match_here email_regex true s); [reflexivity | discriminate].
Qed.

(** C6: for every address the validator accepts and every role, the
    recipient record has that role, the address as its email address and
    as its display name, "SMTP" as its address type, and the kinds of an
    individual mail user. *)
Theorem prepare_recipients_record (address : pystr) (role : RecipientType)
        (w : world) :
  validate_mail_address (PStr address) = Ok tt ->
  exists recipient,
    outcome (prepare_recipients (PStr address) role) w = Ok recipient
    /\ recipient_type recipient = Some role
    /\ email_address recipient = Some (PStr address)
    /\ display_name recipient = Some (PStr address)
    /\ address_type recipient = Some (lit "SMTP")
    /\ display_type recipient = Some DisplayType_MAIL_USER
    /\ object_type recipient = Some ObjectType_MAIL_USER.
Proof.
  intros H. apply validate_ok_accepted in H.
  exists (mail_user role (PStr address)). unfold outcome.
  rewrite (prepare_recipients_accepted _ role w H).
  repeat split.
Qed.

(** C6 at "c@d.com" in the role of a copy. *)
Lemma prepare_recipients_record_witness :
  validate_mail_address (PStr (lit "c@d.com")) = Ok tt
  /\ exists recipient,
      outcome (prepare_recipients (PStr (lit "c@d.com")) CC) example_world
      = Ok recipient
      /\ recipient_type recipient = Some CC
      /\ email_address recipient = Some (PStr (lit "c@d.com"))
      /\ display_name recipient = Some (PStr (lit "c@d.com"))
      /\ address_type recipient = Some (lit "SMTP")
      /\ display_type recipient = Some DisplayType_MAIL_USER
      /\ object_type recipient = Some ObjectType_MAIL_USER.
Proof.
  split; [reflexivity |].
  apply (prepare_recipients_record (lit "c@d.com") CC example_world).
  reflexivity.
Defined.

(** ** The assembly of the message *)

Lemma generate_mail_blocks (to cc : pyval) (subject body : pystr) :
  generate_mail to cc subject body
  = (Message_new ;;
     to_part <- recipients_block TO to_type_msg to ;;
     let (recipient_to, display_to) := to_part in
     cc_part <-
       (if ne_empty_str cc then recipients_block CC cc_type_msg cc
        else ret ([], [])) ;;
     let (recipient_cc, display_cc) := cc_part in
     populate_and_save to subject body
                       recipient_to display_to recipient_cc display_cc).
Proof. reflexivity. Qed.

Lemma cc_block_valid (cc : pyval) (w : world) :
  valid_cc cc = true ->
  (if ne_empty_str cc then recipients_block CC cc_type_msg cc
   else ret ([], [])) w
  = (Ok (map (mail_user CC) (addresses cc), display cc),
     world_with (List.length (addresses cc)) (message w) w).
Proof.
  unfold valid_cc. intros H.
  destruct (ne_empty_str cc) eqn:Hne.
  - apply recipients_block_valid. exact H.
  - destruct cc as [[| c s] | | | |]; try discriminate.
    unfold ret. cbn [addresses display map List.length].
    rewrite world_with_0. reflexivity.
Qed.

Lemma cc_block_invalid (cc : pyval) (w : world) :
  valid_cc cc = false ->
  exists e n,
    (if ne_empty_str cc then recipients_block CC cc_type_msg cc
     else ret ([], [])) w
    = (Raise e, world_with n (message w) w)
    /\ check_error e = true.
Proof.
  unfold valid_cc. intros H. apply orb_false_iff in H.
  destruct H as [Hne Hv]. apply negb_false_iff in Hne. rewrite Hne.
  apply recipients_block_invalid. exact Hv.
Qed.

Lemma cc_block_wrong_type (cc : pyval) (w : world) :
  str_or_list cc = false ->
  (if ne_empty_str cc then recipients_block CC cc_type_msg cc
   else ret ([], [])) w
  = (Raise (TypeError (Some cc_type_msg)), w).
Proof. destruct cc; try discriminate; reflexivity. Qed.

Lemma recipients_append_all (rs : list Recipient) :
  forall w : world,
    append_each rs w
    = (Ok tt,
       with_message
         {| subject := subject (message w);
            body_html_text := body_html_text (message w);
            body_rtf := body_rtf (message w);
            display_to := display_to (message w);
            display_cc := display_cc (message w);
            recipients := recipients (message w) ++ rs;
            message_flags := message_flags (message w);
            store_support_masks := store_support_masks (message w) |}
         w).
Proof.
  induction rs as [| r rs IH]; intros [clk wr dk n m].
  - cbn. rewrite app_nil_r. destruct m. reflexivity.
  - cbn [append_each]. unfold bind at 1, on_message at 1.
    rewrite IH. cbn. rewrite <- app_assoc. reflexivity.
Qed.

Lemma populate_and_save_run (to : pyval) (subject body : pystr)
      (recipient_to : list Recipient) (display_to : pystr)
      (recipient_cc : list Recipient) (display_cc : pystr) (w : world) :
  message w = Message_blank ->
  populate_and_save to subject body
                    recipient_to display_to recipient_cc display_cc w
  = name_and_save to subject
      (with_message
         {| subject := Some subject;
            body_html_text := Some (flat_map html_char body);
            body_rtf :=
              Some (rtf_preamble ++ flat_map html_char body ++ lit "}");
            display_to := Some display_to;
            display_cc := Some display_cc;
            recipients := recipient_to ++ recipient_cc;
            message_flags := [UNSENT];
            store_support_masks := [CREATE] |}
         w).
Proof.
  destruct w as [clk wr dk n m]. cbn [message]. intros ->.
  unfold populate_and_save.
  unfold bind at 1, lift at 1. rewrite encode_html_characters_total.
  unfold bind at 1, lift at 1. rewrite encode_utf8_ascii.
  2:{ apply Forall_app. split; [repeat constructor |].
      apply Forall_app. split; [apply flat_map_html_char_ascii |].
      repeat constructor. }
  cbn [of_option].
  do 5 (unfold bind at 1, on_message at 1).
  unfold bind at 1. rewrite recipients_append_all.
  unfold bind at 1. rewrite recipients_append_all.
  do 2 (unfold bind at 1, on_message at 1).
  reflexivity.
Qed.

Lemma generate_mail_valid (to cc : pyval) (subject body : pystr) (w : world) :
  valid_recipients to = true ->
  valid_cc cc = true ->
  generate_mail to cc subject body w
  = name_and_save to subject
      (world_with (List.length (addresses to) + List.length (addresses cc))
                  (assembled to cc subject body) w).
Proof.
  intros Hto Hcc. rewrite generate_mail_blocks.
  unfold bind at 1, Message_new at 1.
  unfold bind at 1. rewrite (recipients_block_valid _ _ _ _ Hto).
  unfold bind at 1. rewrite (cc_block_valid _ _ Hcc).
  rewrite populate_and_save_run by reflexivity.
  f_equal. destruct w. unfold world_with, with_message, assembled. cbn.
  f_equal. lia.
Qed.

Lemma generate_mail_invalid (to cc : pyval) (subject body : pystr)
      (w : world) :
  valid_recipients to = false \/ valid_cc cc = false ->
  exists e n,
    generate_mail to cc subject body w
    = (Raise e, world_with n Message_blank w)
    /\ check_error e = true.
Proof.
  intros H. rewrite generate_mail_blocks.
  unfold bind at 1, Message_new at 1.
  destruct (valid_recipients to) eqn:Hto.
  - destruct H as [H | Hcc]; [discriminate |].
    unfold bind at 1. rewrite (recipients_block_valid _ _ _ _ Hto).
    unfold bind at 1.
    destruct (cc_block_invalid cc
                (world_with (List.length (addresses to))
                   (message (with_message Message_blank w))
                   (with_message Message_blank w)) Hcc)
      as (e & n & -> & Hc).
    exists e, (List.length (addresses to) + n)%nat. split; [| exact Hc].
    f_equal. destruct w. unfold world_with, with_message. cbn.
    f_equal. lia.
  - unfold bind at 1.
    destruct (recipients_block_invalid TO to_type_msg to
                (with_message Message_blank w) Hto) as (e & n & -> & Hc).
    exists e, n. split; [| exact Hc].
    f_equal.
Qed.

Lemma generate_mail_cc_wrong_type (to cc : pyval) (subject body : pystr)
      (w : world) :
  valid_recipients to = true ->
  str_or_list cc = false ->
  generate_mail to cc subject body w
  = (Raise (TypeError (Some cc_type_msg)),
     world_with (List.length (addresses to)) Message_blank w).
Proof.
  intros Hto Hcc. rewrite generate_mail_blocks.
  unfold bind at 1, Message_new at 1.
  unfold bind at 1. rewrite (recipients_block_valid _ _ _ _ Hto).
  unfold bind at 1. rewrite (cc_block_wrong_type _ _ Hcc).
  f_equal.
Qed.

Lemma generate_msg_filename_world (v : pyval) (subject : pystr) (w : world) :
  snd (generate_msg_filename v subject w) = w.
Proof.
  unfold generate_msg_filename, bind, datetime_now, lift, ret, raise.
  destruct v as [s | [| first rest] | | |]; cbn [contains item0 snd];
    try reflexivity.
  - destruct (existsb (N.eqb AT) s); [| reflexivity].
    cbn [method_split]. destruct (split_head s) as [pieces ->]. reflexivity.
  - destruct first as [s | | | |]; cbn [method_split]; try reflexivity.
    destruct (split_head s) as [pieces ->]. cbn [item0].
    destruct (1 <? List.length (PStr s :: rest))%nat; reflexivity.
Qed.

Lemma name_and_save_keeps (to : pyval) (subject : pystr) (w : world) :
  message (snd (name_and_save to subject w)) = message w
  /\ recipients_constructed (snd (name_and_save to subject w))
     = recipients_constructed w.
Proof.
  unfold name_and_save, bind.
  pose proof (generate_msg_filename_world to subject w) as Hw.
  destruct (generate_msg_filename to subject w) as [[filename | e] w'];
    cbn [snd] in Hw; subst w'.
  - unfold save. destruct (writable w filename); split; reflexivity.
  - split; reflexivity.
Qed.

Lemma name_and_save_empty_list (subject : pystr) (w : world) :
  name_and_save (PList []) subject w = (Raise IndexError, w).
Proof.
  unfold name_and_save, bind.
  rewrite generate_msg_filename_empty_list. reflexivity.
Qed.

Lemma name_and_save_str (s subject : pystr) (w : world) :
  name_and_save (PStr s) subject w
  = save (msg_filename (clock w)
            (if existsb (N.eqb AT) s then before_at s else s) subject) w.
Proof.
  unfold name_and_save, bind. rewrite generate_msg_filename_str. reflexivity.
Qed.

(** ** The claims on generate_mail *)

(** C1, as amended: for every [cc] that is neither a string nor a list,
    and every valid [to], [generate_mail] raises the type error of [cc]
    without constructing any copy recipient: the recipients constructed
    are the primary ones, one for each address of [to]; none is appended
    to the message, which is as [Message()] made it, and no file is
    written. *)
Theorem generate_mail_cc_type_error (to cc : pyval) (subject body : pystr)
        (w : world) :
  valid_recipients to = true ->
  str_or_list cc = false ->
  outcome (generate_mail to cc subject body) w
  = Raise (TypeError (Some cc_type_msg))
  /\ recipients_constructed (after (generate_mail to cc subject body) w)
     = (List.length (addresses to) + recipients_constructed w)%nat
  /\ message (after (generate_mail to cc subject body) w) = Message_blank
  /\ disk (after (generate_mail to cc subject body) w) = disk w.
Proof.
  intros Hto Hcc. unfold outcome, after.
  rewrite (generate_mail_cc_wrong_type _ _ _ _ _ Hto Hcc).
  repeat split.
Qed.

(** C1, amended, at to = "a@b.com" and cc = 123. *)
Lemma generate_mail_cc_type_error_witness :
  (valid_recipients (PStr (lit "a@b.com")) = true
   /\ str_or_list (PInt 123) = false)
  /\ outcome (generate_mail (PStr (lit "a@b.com")) (PInt 123)
                            (lit "Status Update") (lit "hi")) example_world
     = Raise (TypeError (Some cc_type_msg))
  /\ recipients_constructed
       (after (generate_mail (PStr (lit "a@b.com")) (PInt 123)
                             (lit "Status Update") (lit "hi")) example_world)
     = (List.length (addresses (PStr (lit "a@b.com")))
        + recipients_constructed example_world)%nat
  /\ message
       (after (generate_mail (PStr (lit "a@b.com")) (PInt 123)
                             (lit "Status Update") (lit "hi")) example_world)
     = Message_blank
  /\ disk
       (after (generate_mail (PStr (lit "a@b.com")) (PInt 123)
                             (lit "Status Update") (lit "hi")) example_world)
     = disk example_world.
Proof.
  split; [split; reflexivity |].
  apply (generate_mail_cc_type_error (PStr (lit "a@b.com")) (PInt 123)
           (lit "Status Update") (lit "hi") example_world);
    reflexivity.
Defined.

(** C1, as stated, fails at to = "a@b.com" and cc = 123: the type error
    is raised after the primary recipient has been constructed. *)
Lemma generate_mail_cc_123_constructs_primary :
  outcome (generate_mail (PStr (lit "a@b.com")) (PInt 123)
                         (lit "Status Update") (lit "hi")) example_world
  = Raise (TypeError (Some cc_type_msg))
  /\ recipients_constructed example_world = 0%nat
  /\ recipients_constructed
       (after (generate_mail (PStr (lit "a@b.com")) (PInt 123)
                             (lit "Status Update") (lit "hi")) example_world)
     = 1%nat
  /\ recipients_constructed
       (after (generate_mail (PStr (lit "a@b.com")) (PInt 123)
                             (lit "Status Update") (lit "hi")) example_world)
     <> recipients_constructed example_world.
Proof. repeat split. discriminate. Qed.

(** C4: when a check on [to] or [cc] fails, an invalid address or a
    value of the wrong type, [generate_mail] raises the error of that
    check with no field of the message set and no recipient appended to
    it, the message being as [Message()] made it, and with no file
    written. *)
Theorem generate_mail_fail_fast (to cc : pyval) (subject body : pystr)
        (w : world) :
  valid_recipients to = false \/ valid_cc cc = false ->
  (exists e, outcome (generate_mail to cc subject body) w = Raise e
             /\ check_error e = true)
  /\ message (after (generate_mail to cc subject body) w) = Message_blank
  /\ disk (after (generate_mail to cc subject body) w) = disk w.
Proof.
  intros H. unfold outcome, after.
  destruct (generate_mail_invalid to cc subject body w H)
    as (e & n & -> & Hc).
  split; [exists e; split; [reflexivity | exact Hc] |].
  split; reflexivity.
Qed.

(** C4 at a valid [to] and a [cc] list whose second address has no
    domain. *)
Lemma generate_mail_fail_fast_witness :
  (valid_recipients (PStr (lit "a@b.com")) = false
   \/ valid_cc (PList [PStr (lit "c@d.com"); PStr (lit "e@f")]) = false)
  /\ (exists e,
         outcome (generate_mail (PStr (lit "a@b.com"))
                    (PList [PStr (lit "c@d.com"); PStr (lit "e@f")])
                    (lit "Status Update") (lit "hi")) example_world
         = Raise e
         /\ check_error e = true)
  /\ message
       (after (generate_mail (PStr (lit "a@b.com"))
                 (PList [PStr (lit "c@d.com"); PStr (lit "e@f")])
                 (lit "Status Update") (lit "hi")) example_world)
     = Message_blank
  /\ disk
       (after (generate_mail (PStr (lit "a@b.com"))
                 (PList [PStr (lit "c@d.com"); PStr (lit "e@f")])
                 (lit "Status Update") (lit "hi")) example_world)
     = disk example_world.
Proof.
  split; [right; reflexivity |].
  apply (generate_mail_fail_fast (PStr (lit "a@b.com"))
           (PList [PStr (lit "c@d.com"); PStr (lit "e@f")])
           (lit "Status Update") (lit "hi") example_world).
  right. reflexivity.
Defined.

Lemma generate_mail_message (to cc : pyval) (subject body : pystr)
      (w : world) :
  valid_recipients to = true ->
  valid_cc cc = true ->
  message (after (generate_mail to cc subject body) w)
  = assembled to cc subject body
  /\ recipients_constructed (after (generate_mail to cc subject body) w)
     = (List.length (addresses to) + List.length (addresses cc)
        + recipients_constructed w)%nat.
Proof.
  intros Hto Hcc. unfold after.
  rewrite (generate_mail_valid _ _ _ _ _ Hto Hcc).
  destruct (name_and_save_keeps to subject
              (world_with
                 (List.length (addresses to) + List.length (addresses cc))
                 (assembled to cc subject body) w)) as [-> ->].
  split; reflexivity.
Qed.

Lemma valid_recipients_valid_cc (cc : pyval) :
  valid_recipients cc = true -> valid_cc cc = true.
Proof. intros H. unfold valid_cc. rewrite H. apply orb_true_r. Qed.

(** C7: for valid [to] and valid non-empty [cc], the recipients of the
    message are the primary recipients, in the order of [to], followed
    by the copy recipients, in the order of [cc]; the display strings
    are the input string, or the addresses of the input list joined with
    "; ".  With to = "a@b.com" and cc = ["c@d.com","e@f.com"] the
    message has three recipients, one primary and then two copies. *)
Theorem generate_mail_recipients_in_order :
  (forall (to cc : pyval) (subject body : pystr) (w : world),
      valid_recipients to = true ->
      valid_recipients cc = true ->
      let m := message (after (generate_mail to cc subject body) w) in
      recipients m
      = map (mail_user TO) (addresses to)
            ++ map (mail_user CC) (addresses cc)
      /\ display_to m = Some (display to)
      /\ display_cc m = Some (display cc))
  /\ (forall (subject body : pystr) (w : world),
         map recipient_type
             (recipients
                (message
                   (after (generate_mail
                             (PStr (lit "a@b.com"))
                             (PList [PStr (lit "c@d.com");
                                     PStr (lit "e@f.com")])
                             subject body) w)))
         = [Some TO; Some CC; Some CC]).
Proof.
  split.
  - intros to cc subject body w Hto Hcc m. subst m.
    destruct (generate_mail_message to cc subject body w Hto
                (valid_recipients_valid_cc cc Hcc)) as [-> _].
    repeat split.
  - intros subject body w.
    assert (Hcc : valid_recipients
                    (PList [PStr (lit "c@d.com"); PStr (lit "e@f.com")])
                  = true) by reflexivity.
    destruct (generate_mail_message
                (PStr (lit "a@b.com"))
                (PList [PStr (lit "c@d.com"); PStr (lit "e@f.com")])
                subject body w eq_refl (valid_recipients_valid_cc _ Hcc))
      as [-> _].
    reflexivity.
Qed.

(** C7 at two primary and two copy recipients, both given as lists. *)
Lemma generate_mail_recipients_in_order_witness :
  let to := PList [PStr (lit "a@b.com"); PStr (lit "g@h.org")] in
  let cc := PList [PStr (lit "c@d.com"); PStr (lit "e@f.com")] in
  let m := message (after (generate_mail to cc (lit "Status Update")
                                         (lit "hi")) example_world) in
  (valid_recipients to = true /\ valid_recipients cc = true)
  /\ map email_address (recipients m)
     = [Some (PStr (lit "a@b.com")); Some (PStr (lit "g@h.org"));
        Some (PStr (lit "c@d.com")); Some (PStr (lit "e@f.com"))]
  /\ map recipient_type (recipients m)
     = [Some TO; Some TO; Some CC; Some CC]
  /\ display_to m = Some (lit "a@b.com; g@h.org")
  /\ display_cc m = Some (lit "c@d.com; e@f.com").
Proof.
  intros to cc m.
  split; [split; reflexivity |].
  destruct (proj1 generate_mail_recipients_in_order to cc
              (lit "Status Update") (lit "hi") example_world
              eq_refl eq_refl)
    as (Hr & Hto & Hcc).
  fold m in Hr, Hto, Hcc. rewrite Hr, Hto, Hcc.
  repeat split.
Defined.

(** C8: for a valid address [to] and the empty string as [cc], the
    message has one recipient, the primary one, and the empty string as
    its display-cc; one recipient is constructed, and nothing is raised
    but what [save] raises. *)
Theorem generate_mail_no_copies (to subject body : pystr) (w : world) :
  accepted (PStr to) = true ->
  let run := generate_mail (PStr to) (PStr []) subject body in
  recipients (message (after run w)) = [mail_user TO (PStr to)]
  /\ display_cc (message (after run w)) = Some []
  /\ recipients_constructed (after run w) = S (recipients_constructed w)
  /\ (outcome run w = Ok tt \/ outcome run w = Raise OSError).
Proof.
  intros Hto run. subst run.
  destruct (accepted_str _ Hto) as (c & s & Heq & _).
  destruct (generate_mail_message (PStr to) (PStr []) subject body w Hto
              eq_refl) as [Hm Hn].
  rewrite Hm, Hn. injection Heq as ->.
  repeat split.
  unfold outcome.
  rewrite (generate_mail_valid (PStr (c :: s)) (PStr []) subject body w Hto
             eq_refl).
  rewrite name_and_save_str. unfold save.
  match goal with |- context [if ?b then _ else _] => destruct b end;
    [left | right]; reflexivity.
Qed.

(** C8 at to = "u@v.com". *)
Lemma generate_mail_no_copies_witness :
  let run := generate_mail (PStr (lit "u@v.com")) (PStr [])
                           (lit "Status Update") (lit "hi") in
  accepted (PStr (lit "u@v.com")) = true
  /\ recipients (message (after run example_world))
     = [mail_user TO (PStr (lit "u@v.com"))]
  /\ display_cc (message (after run example_world)) = Some []
  /\ recipients_constructed (after run example_world)
     = S (recipients_constructed example_world)
  /\ (outcome run example_world = Ok tt
      \/ outcome run example_world = Raise OSError).
Proof.
  intros run. split; [reflexivity |].
  apply (generate_mail_no_copies (lit "u@v.com") (lit "Status Update")
           (lit "hi") example_world).
  reflexivity.
Defined.

(** C9: the RTF body set on the message is the UTF-8 encoding of the
    fixed preamble, the HTML encoding of the body and the closing brace;
    for the body "hi" it is the encoding of
    "{\rtf1\ansi\ansicpg1252\fromhtml1 \htmlrtf0 hi}". *)
Theorem generate_mail_rtf_body (to cc : pyval) (subject body : pystr)
        (w : world) :
  valid_recipients to = true ->
  valid_cc cc = true ->
  (exists html rtf,
      encode_html_characters body = Ok html
      /\ encode_utf8
           (lit "{\rtf1\ansi\ansicpg1252\fromhtml1 \htmlrtf0 " ++ html
                ++ lit "}") = Some rtf
      /\ body_rtf (message (after (generate_mail to cc subject body) w))
         = Some rtf)
  /\ (exists rtf,
         encode_utf8 (lit "{\rtf1\ansi\ansicpg1252\fromhtml1 \htmlrtf0 hi}")
         = Some rtf
         /\ body_rtf
              (message (after (generate_mail to cc subject (lit "hi")) w))
            = Some rtf).
Proof.
  intros Hto Hcc. split.
  - exists (flat_map html_char body),
           (rtf_preamble ++ flat_map html_char body ++ lit "}").
    split; [apply encode_html_characters_total |]. split.
    + apply encode_utf8_ascii.
      apply Forall_app. split; [repeat constructor |].
      apply Forall_app. split; [apply flat_map_html_char_ascii |].
      repeat constructor.
    + destruct (generate_mail_message to cc subject body w Hto Hcc)
        as [-> _].
      reflexivity.
  - exists (lit "{\rtf1\ansi\ansicpg1252\fromhtml1 \htmlrtf0 hi}").
    split; [reflexivity |].
    destruct (generate_mail_message to cc subject (lit "hi") w Hto Hcc)
      as [-> _].
    reflexivity.
Qed.

(** C9 at to = "a@b.com", no copies, and the body "hi". *)
Lemma generate_mail_rtf_body_witness :
  (valid_recipients (PStr (lit "a@b.com")) = true
   /\ valid_cc (PStr []) = true)
  /\ exists rtf,
      encode_utf8 (lit "{\rtf1\ansi\ansicpg1252\fromhtml1 \htmlrtf0 hi}")
      = Some rtf
      /\ body_rtf
           (message (after (generate_mail (PStr (lit "a@b.com")) (PStr [])
                              (lit "Status Update") (lit "hi"))
                           example_world))
         = Some rtf.
Proof.
  split; [split; reflexivity |].
  apply (proj2 (generate_mail_rtf_body (PStr (lit "a@b.com")) (PStr [])
                  (lit "Status Update") (lit "hi") example_world
                  eq_refl eq_refl)).
Defined.

(** C10, as amended: for [to] the empty list and every [cc],
    [generate_mail] raises and writes no file; when [cc] is the empty
    string or valid, no primary recipient is built, the display-to is
    the empty string, the message holds the copy recipients only, and
    the error is the index error of [generate_msg_filename], raised
    before the save. *)
Theorem generate_mail_empty_to (cc : pyval) (subject body : pystr)
        (w : world) :
  let run := generate_mail (PList []) cc subject body in
  ((exists e, outcome run w = Raise e) /\ disk (after run w) = disk w)
  /\ (valid_cc cc = true ->
      outcome run w = Raise IndexError
      /\ display_to (message (after run w)) = Some []
      /\ recipients (message (after run w))
         = map (mail_user CC) (addresses cc)
      /\ recipients_constructed (after run w)
         = (List.length (addresses cc) + recipients_constructed w)%nat).
Proof.
  intros run. subst run.
  assert (Hvalid :
            valid_cc cc = true ->
            generate_mail (PList []) cc subject body w
            = (Raise IndexError,
               world_with (List.length (addresses cc))
                          (assembled (PList []) cc subject body) w)).
  { intros Hcc.
    rewrite (generate_mail_valid (PList []) cc subject body w eq_refl Hcc).
    apply name_and_save_empty_list. }
  split.
  - unfold outcome, after. destruct (valid_cc cc) eqn:Hcc.
    + rewrite (Hvalid eq_refl). split; [eexists |]; reflexivity.
    + destruct (generate_mail_invalid (PList []) cc subject body w
                  (or_intror Hcc)) as (e & n & -> & _).
      split; [eexists |]; reflexivity.
  - intros Hcc. unfold outcome, after. rewrite (Hvalid Hcc).
    repeat split.
Qed.

(** C10, amended, at cc = "c@d.com". *)
Lemma generate_mail_empty_to_witness :
  let run := generate_mail (PList []) (PStr (lit "c@d.com"))
                           (lit "Status Update") (lit "hi") in
  valid_cc (PStr (lit "c@d.com")) = true
  /\ outcome run example_world = Raise IndexError
  /\ display_to (message (after run example_world)) = Some []
  /\ recipients (message (after run example_world))
     = map (mail_user CC) (addresses (PStr (lit "c@d.com")))
  /\ recipients_constructed (after run example_world)
     = (List.length (addresses (PStr (lit "c@d.com")))
        + recipients_constructed example_world)%nat.
Proof.
  intros run. split; [reflexivity |].
  apply (proj2 (generate_mail_empty_to (PStr (lit "c@d.com"))
                  (lit "Status Update") (lit "hi") example_world)).
  reflexivity.
Defined.

(** C10, as stated, fails at cc = 123: the call raises the type error of
    [cc], and [generate_msg_filename] is not reached. *)
Lemma generate_mail_empty_to_cc_123 :
  outcome (generate_mail (PList []) (PInt 123) (lit "Status Update")
                         (lit "hi")) example_world
  = Raise (TypeError (Some cc_type_msg))
  /\ outcome (generate_mail (PList []) (PInt 123) (lit "Status Update")
                            (lit "hi")) example_world
     <> Raise IndexError.
Proof. split; [reflexivity | discriminate]. Qed.

(** * Further properties *)

(** ** The HTML encoding, continued *)

Lemma html_char_no_line_feed (c : N) :
  Forall (fun x => x <> LF) (html_char c).
Proof.
  unfold html_char.
  destruct (128 <=? c) eqn:Hge.
  - eapply Forall_impl; [| apply xmlcharref_range].
    unfold LF. simpl. lia.
  - destruct (c =? LF) eqn:Hlf.
    + repeat constructor; discriminate.
    + apply N.eqb_neq in Hlf. repeat constructor. exact Hlf.
Qed.

Lemma flat_map_html_char_plain (s : pystr) :
  Forall plain (flat_map html_char s).
Proof.
  induction s as [| c s IH]; [constructor |].
  cbn [flat_map]. apply Forall_app. split; [| exact IH].
  pose proof (html_char_ascii c) as Ha.
  pose proof (html_char_no_line_feed c) as Hn.
  rewrite Forall_forall in *. intros x Hx. split; auto.
Qed.

Lemma html_char_plain (c : N) : plain c -> html_char c = [c].
Proof.
  intros [Hlt Hne]. unfold html_char.
  assert (Hge : (128 <=? c) = false) by (apply N.leb_gt; exact Hlt).
  apply N.eqb_neq in Hne. rewrite Hge, Hne. reflexivity.
Qed.

Lemma flat_map_html_char_fixed (s : pystr) :
  Forall plain s -> flat_map html_char s = s.
Proof.
  induction 1 as [| c s Hc _ IH]; [reflexivity |].
  cbn [flat_map]. rewrite (html_char_plain Hc), IH. reflexivity.
Qed.

Lemma html_char_length (c : N) :
  (1 <= List.length (html_char c))%nat
  /\ (List.length (html_char c) = 1%nat -> plain c).
Proof.
  unfold html_char, plain.
  destruct (128 <=? c) eqn:Hge.
  - unfold xmlcharref. cbn [lit app List.length]. rewrite length_app.
    cbn [List.length]. split; [lia | intros H; exfalso; lia].
  - apply N.leb_gt in Hge. destruct (c =? LF) eqn:Hlf.
    + cbn. split; [lia | discriminate].
    + apply N.eqb_neq in Hlf. cbn. split; [lia | auto].
Qed.

Lemma flat_map_html_char_length (s : pystr) :
  (List.length s <= List.length (flat_map html_char s))%nat.
Proof.
  induction s as [| c s IH]; [reflexivity |].
  cbn [flat_map List.length]. rewrite length_app.
  pose proof (proj1 (html_char_length c)). lia.
Qed.

Lemma flat_map_html_char_fixed_inv (s : pystr) :
  flat_map html_char s = s -> Forall plain s.
Proof.
  induction s as [| c s IH]; [constructor |].
  cbn [flat_map]. intros H.
  assert (Hlen : List.length (html_char c) = 1%nat).
  { apply (f_equal (@List.length N)) in H.
    rewrite length_app in H. cbn [List.length] in H.
    pose proof (flat_map_html_char_length s).
    pose proof (proj1 (html_char_length c)). lia. }
  pose proof (proj2 (html_char_length c) Hlen) as Hc.
  rewrite (html_char_plain Hc) in H. injection H as H.
  constructor; [exact Hc | exact (IH H)].
Qed.

(** X1: whatever the input, the HTML encoding is a string of ASCII
    characters without a line feed: no character of code point 128 or
    more, and no raw line break, reaches the HTML body. *)
Theorem encode_html_characters_output_plain (s : pystr) :
  exists html,
    encode_html_characters s = Ok html
    /\ Forall (fun c => c < 128 /\ c <> LF) html.
Proof.
  exists (flat_map html_char s).
  split; [apply encode_html_characters_total |].
  apply flat_map_html_char_plain.
Qed.

(** X2: the strings the HTML encoding returns unchanged are exactly the
    strings of ASCII characters without a line feed. *)
Theorem encode_html_characters_fixed_points (s : pystr) :
  encode_html_characters s = Ok s
  <-> Forall (fun c => c < 128 /\ c <> LF) s.
Proof.
  rewrite encode_html_characters_total. split.
  - intros H. injection H as H. apply flat_map_html_char_fixed_inv, H.
  - intros H. f_equal. apply flat_map_html_char_fixed, H.
Qed.

(** X2 at "<b>5 & 6</b>", which is returned as it is, and at a string
    with a line feed, which is not. *)
Lemma encode_html_characters_fixed_points_witness :
  (Forall (fun c => c < 128 /\ c <> LF) (lit "<b>5 & 6</b>")
   /\ encode_html_characters (lit "<b>5 & 6</b>") = Ok (lit "<b>5 & 6</b>"))
  /\ (encode_html_characters [LF] <> Ok [LF]
      /\ ~ Forall (fun c => c < 128 /\ c <> LF) [LF]).
Proof.
  assert (H : Forall (fun c => c < 128 /\ c <> LF) (lit "<b>5 & 6</b>")).
  { repeat constructor; discriminate. }
  split; split.
  - exact H.
  - apply (proj2 (encode_html_characters_fixed_points (lit "<b>5 & 6</b>"))).
    exact H.
  - discriminate.
  - intros Hall.
    apply (proj2 (encode_html_characters_fixed_points [LF])) in Hall.
    discriminate Hall.
Defined.

(** X3: the HTML encoding works character by character: the encoding of
    a concatenation is the concatenation of the encodings. *)
Theorem encode_html_characters_app (a b : pystr) :
  exists x y,
    encode_html_characters a = Ok x
    /\ encode_html_characters b = Ok y
    /\ encode_html_characters (a ++ b) = Ok (x ++ y).
Proof.
  exists (flat_map html_char a), (flat_map html_char b).
  rewrite !encode_html_characters_total, flat_map_app.
  repeat split.
Qed.

(** X4: encoding twice is encoding once: an encoded text is returned
    unchanged by a second encoding. *)
Theorem encode_html_characters_idempotent (s : pystr) :
  exists html,
    encode_html_characters s = Ok html
    /\ encode_html_characters html = Ok html.
Proof.
  exists (flat_map html_char s).
  rewrite !encode_html_characters_total. split; [reflexivity |].
  f_equal. apply flat_map_html_char_fixed, flat_map_html_char_plain.
Qed.

(** X5: a character above the ASCII range and the text of its own
    numeric reference have the same encoding, so that the encoding
    cannot be undone. *)
Theorem encode_html_characters_reference_collision (c : N) :
  128 <= c ->
  [c] <> lit "&#" ++ decimal c ++ lit ";"
  /\ encode_html_characters [c]
     = encode_html_characters (lit "&#" ++ decimal c ++ lit ";").
Proof.
  intros Hc. split; [discriminate |].
  rewrite !encode_html_characters_total. f_equal.
  change (lit "&#" ++ decimal c ++ lit ";") with (xmlcharref c).
  rewrite (flat_map_html_char_fixed (s := xmlcharref c)).
  - cbn [flat_map]. rewrite app_nil_r. unfold html_char.
    apply N.leb_le in Hc. rewrite Hc. reflexivity.
  - eapply Forall_impl; [| apply xmlcharref_range].
    unfold plain, LF. simpl. lia.
Qed.

(** X5 at U+00E9. *)
Lemma encode_html_characters_reference_collision_witness :
  128 <= 233
  /\ [233] <> lit "&#233;"
  /\ encode_html_characters [233] = encode_html_characters (lit "&#233;").
Proof.
  split; [discriminate |].
  apply (@encode_html_characters_reference_collision 233).
  discriminate.
Defined.

(** ** The address validator, continued *)

Lemma email_regex_complete_line_feed (s : pystr) :
  canonical_shape s -> match_here email_regex true (s ++ [LF]) = true.
Proof.
  intros (l & d & t & Hs & Hl0 & Hl & Hd0 & Hd & Ht2 & Ht). subst s.
  replace ((l ++ AT :: d ++ DOT :: t) ++ [LF])
    with (l ++ AT :: d ++ DOT :: t ++ [LF])
    by (rewrite <- !app_assoc; cbn [app]; rewrite <- app_assoc;
        reflexivity).
  unfold email_regex. cbn [match_here andb].
  apply match_rep_complete; auto.
  { destruct l; [congruence | simpl; lia]. }
  destruct l as [| c l]; [congruence |]. cbn [bos_after].
  rewrite N.eqb_refl. cbn [andb].
  apply match_rep_complete; auto.
  { destruct d; [congruence | simpl; lia]. }
  destruct d as [| c' d]; [congruence |]. cbn [bos_after].
  rewrite N.eqb_refl. cbn [andb].
  apply match_rep_complete; auto.
Qed.

Lemma email_regex_shape (s : pystr) :
  match_here email_regex true s = true ->
  canonical_shape s \/ exists s', s = s' ++ [LF] /\ canonical_shape s'.
Proof.
  intros Hm.
  destruct (email_regex_sound s Hm)
    as (l & d & t & e & Hs & Hl0 & Hl & Hd0 & Hd & Ht2 & Ht & He).
  destruct He as [-> | ->].
  - left. exists l, d, t. rewrite app_nil_r in Hs. repeat split; auto.
  - right. exists (l ++ AT :: d ++ DOT :: t). split.
    + rewrite Hs. rewrite <- !app_assoc. cbn [app].
      rewrite <- app_assoc. reflexivity.
    + exists l, d, t. repeat split; auto.
Qed.

(** X6: the strings the validator accepts are exactly the strings of
    the canonical shape and those strings followed by one line feed;
    every other string raises the assertion error. *)
Theorem validate_mail_address_accepts_exactly (s : pystr) :
  (validate_mail_address (PStr s) = Ok tt
   <-> canonical_shape s
       \/ exists s', s = s' ++ [LF] /\ canonical_shape s')
  /\ (validate_mail_address (PStr s) = Ok tt
      \/ validate_mail_address (PStr s)
         = Raise (AssertionError (s ++ lit " is not a valid mail address."))).
Proof.
  split.
  - split.
    + intros H. apply validate_ok_accepted in H.
      apply email_regex_shape. exact H.
    + intros [H | (s' & -> & H)]; apply validate_accepts.
      * apply email_regex_complete, H.
      * apply email_regex_complete_line_feed, H.
  - destruct (match_here email_regex true s) eqn:Hm.
    + left. apply validate_accepts, Hm.
    + right. apply validate_rejects, Hm.
Qed.

(** X6 at "a@b.com" followed by a line feed. *)
Lemma validate_mail_address_accepts_exactly_witness :
  (exists s', lit "a@b.com" ++ [LF] = s' ++ [LF] /\ canonical_shape s')
  /\ validate_mail_address (PStr (lit "a@b.com" ++ [LF])) = Ok tt.
Proof.
  assert (H : exists s',
             lit "a@b.com" ++ [LF] = s' ++ [LF] /\ canonical_shape s').
  { exists (lit "a@b.com"). split; [reflexivity |].
    exact canonical_shape_example. }
  split; [exact H |].
  apply (proj2 (proj1 (validate_mail_address_accepts_exactly
                         (lit "a@b.com" ++ [LF])))).
  right. exact H.
Defined.

Lemma cls_local_range (c : N) :
  cls_local c = true -> 37 <= c <= 122 /\ c <> AT.
Proof.
  unfold cls_local, lower, upper, digit, AT. intros H.
  repeat (rewrite ?orb_true_iff, ?andb_true_iff, ?N.leb_le, ?N.eqb_eq in H).
  lia.
Qed.

Lemma cls_domain_range (c : N) :
  cls_domain c = true -> 45 <= c <= 122 /\ c <> AT.
Proof.
  unfold cls_domain, lower, upper, digit, AT. intros H.
  repeat (rewrite ?orb_true_iff, ?andb_true_iff, ?N.leb_le, ?N.eqb_eq in H).
  lia.
Qed.

Lemma cls_alpha_range (c : N) :
  cls_alpha c = true -> 65 <= c <= 122 /\ c <> AT.
Proof.
  unfold cls_alpha, lower, upper, AT. intros H.
  repeat (rewrite ?orb_true_iff, ?andb_true_iff, ?N.leb_le, ?N.eqb_eq in H).
  lia.
Qed.

Lemma class_count (cls : N -> bool) (lo hi : N) (l : pystr) :
  (forall c, cls c = true -> lo <= c <= hi /\ c <> AT) ->
  Forall (fun c => cls c = true) l ->
  count_occ N.eq_dec l AT = 0%nat
  /\ Forall (fun c => lo <= c <= hi) l.
Proof.
  intros Hcls Hl. split.
  - apply count_occ_not_In. intros Hin.
    rewrite Forall_forall in Hl. apply Hl, Hcls in Hin. tauto.
  - eapply Forall_impl; [| exact Hl]. intros c Hc. apply Hcls, Hc.
Qed.

(** X7: an address the validator accepts has exactly one [@], at least
    six characters, only ASCII characters, and no space. *)
Theorem validate_mail_address_accepted_form (s : pystr) :
  validate_mail_address (PStr s) = Ok tt ->
  count_occ N.eq_dec s AT = 1%nat
  /\ (6 <= List.length s)%nat
  /\ Forall (fun c => c < 128) s
  /\ ~ In SPACE s.
Proof.
  intros H. apply validate_ok_accepted in H.
  destruct (email_regex_sound s H)
    as (l & d & t & e & Hs & Hl0 & Hl & Hd0 & Hd & Ht2 & Ht & He).
  destruct (@class_count cls_local 37 122 l cls_local_range Hl) as [Cl Rl].
  destruct (@class_count cls_domain 45 122 d cls_domain_range Hd)
    as [Cd Rd].
  destruct (@class_count cls_alpha 65 122 t cls_alpha_range Ht) as [Ct Rt].
  assert (Ce : count_occ N.eq_dec e AT = 0%nat
               /\ Forall (fun c => 10 <= c <= 10) e).
  { destruct He as [-> | ->]; split; try reflexivity;
      repeat constructor; unfold LF; lia. }
  destruct Ce as [Ce Re].
  assert (Hall : Forall (fun c => 10 <= c <= 122 /\ c <> SPACE) s).
  { assert (Hweak : forall lo (x : pystr),
               33 <= lo ->
               Forall (fun c => lo <= c <= 122) x ->
               Forall (fun c => 10 <= c <= 122 /\ c <> SPACE) x).
    { intros lo x H1 Hx. eapply Forall_impl; [| exact Hx].
      intros c Hc. unfold SPACE. cbn beta in Hc. lia. }
    subst s.
    apply Forall_app. split; [apply (Hweak 37); [lia | exact Rl] |].
    constructor; [unfold AT, SPACE; lia |].
    apply Forall_app. split; [apply (Hweak 45); [lia | exact Rd] |].
    constructor; [unfold DOT, SPACE; lia |].
    apply Forall_app. split; [apply (Hweak 65); [lia | exact Rt] |].
    eapply Forall_impl; [| exact Re].
    intros c Hc. unfold SPACE. cbn beta in Hc. lia. }
  split; [| split; [| split]].
  - subst s. rewrite count_occ_app, Cl.
    rewrite count_occ_cons_eq by reflexivity.
    rewrite count_occ_app, Cd.
    rewrite count_occ_cons_neq by discriminate.
    rewrite count_occ_app, Ct, Ce. reflexivity.
  - subst s. rewrite length_app. cbn [List.length].
    rewrite length_app. cbn [List.length]. rewrite length_app.
    destruct l; [congruence |]. destruct d; [congruence |].
    cbn [List.length]. lia.
  - eapply Forall_impl; [| exact Hall]. cbn beta. lia.
  - intros Hin. rewrite Forall_forall in Hall. apply Hall in Hin. tauto.
Qed.

(** X7 at "a@b.co", an accepted address of six characters. *)
Lemma validate_mail_address_accepted_form_witness :
  validate_mail_address (PStr (lit "a@b.co")) = Ok tt
  /\ count_occ N.eq_dec (lit "a@b.co") AT = 1%nat
  /\ (6 <= List.length (lit "a@b.co"))%nat
  /\ Forall (fun c => c < 128) (lit "a@b.co")
  /\ ~ In SPACE (lit "a@b.co").
Proof.
  split; [reflexivity |].
  apply (@validate_mail_address_accepted_form (lit "a@b.co")).
  reflexivity.
Defined.

(** ** Recipients, continued *)

Lemma validate_ok_str (v : pyval) :
  validate_mail_address v = Ok tt -> accepted v = true.
Proof.
  destruct v as [s | | | |]; try discriminate.
  apply validate_ok_accepted.
Qed.

(** X8: [prepare_recipients] passes the error of the validator on as it
    is, with no [Recipient] constructed; on an accepted address it
    constructs exactly one, and touches neither the message nor the
    disk. *)
Theorem prepare_recipients_all_or_nothing (v : pyval) (role : RecipientType)
        (w : world) :
  (forall e, validate_mail_address v = Raise e ->
             prepare_recipients v role w = (Raise e, w))
  /\ (validate_mail_address v = Ok tt ->
      outcome (prepare_recipients v role) w = Ok (mail_user role v)
      /\ recipients_constructed (after (prepare_recipients v role) w)
         = S (recipients_constructed w)
      /\ message (after (prepare_recipients v role) w) = message w
      /\ disk (after (prepare_recipients v role) w) = disk w).
Proof.
  split.
  - intros e He. unfold prepare_recipients, bind, lift.
    rewrite He. reflexivity.
  - intros H. apply validate_ok_str in H. unfold outcome, after.
    rewrite (prepare_recipients_accepted _ role w H).
    repeat split.
Qed.

(** X8 at an integer, which the validator refuses with a type error,
    and at "a@b.com". *)
Lemma prepare_recipients_all_or_nothing_witness :
  (validate_mail_address (PInt 7) = Raise (TypeError None)
   /\ prepare_recipients (PInt 7) TO example_world
      = (Raise (TypeError None), example_world))
  /\ (validate_mail_address (PStr (lit "a@b.com")) = Ok tt
      /\ recipients_constructed
           (after (prepare_recipients (PStr (lit "a@b.com")) TO)
                  example_world)
         = S (recipients_constructed example_world)).
Proof.
  split; split.
  - reflexivity.
  - apply (proj1 (prepare_recipients_all_or_nothing (PInt 7) TO
                    example_world)).
    reflexivity.
  - reflexivity.
  - apply (proj2 (prepare_recipients_all_or_nothing
                    (PStr (lit "a@b.com")) TO example_world)).
    reflexivity.
Defined.

Lemma prepare_each_stops (role : RecipientType) (bad : pyval)
      (rest : list pyval) (e : exn) (good : list pyval) :
  forall (acc : list Recipient) (w : world),
    forallb accepted good = true ->
    validate_mail_address bad = Raise e ->
    prepare_each (good ++ bad :: rest) role acc w
    = (Raise e, world_with (List.length good) (message w) w).
Proof.
  induction good as [| item good IH]; intros acc w Hgood Hbad.
  - cbn [app prepare_each List.length]. unfold bind at 1.
    unfold prepare_recipients, bind, lift. rewrite Hbad.
    rewrite world_with_0. reflexivity.
  - cbn [forallb] in Hgood. apply andb_true_iff in Hgood.
    destruct Hgood as [Hi Hr].
    cbn [app prepare_each]. unfold bind at 1.
    rewrite (prepare_recipients_accepted _ _ _ Hi).
    rewrite (IH _ _ Hr Hbad). cbn [message world_with List.length].
    f_equal. unfold world_with. simpl. f_equal. lia.
Qed.

(** X9: in a list [to], the first address the validator refuses ends the
    call with the error of that address: the recipients before it have
    been constructed, those after it are not looked at, and the message
    and the disk are untouched. *)
Theorem generate_mail_first_refused_address (good : list pyval) (bad : pyval)
        (rest : list pyval) (e : exn) (cc : pyval) (subject body : pystr)
        (w : world) :
  forallb accepted good = true ->
  validate_mail_address bad = Raise e ->
  let run := generate_mail (PList (good ++ bad :: rest)) cc subject body in
  outcome run w = Raise e
  /\ recipients_constructed (after run w)
     = (List.length good + recipients_constructed w)%nat
  /\ message (after run w) = Message_blank
  /\ disk (after run w) = disk w.
Proof.
  intros Hgood Hbad run. subst run.
  assert (Hrun : generate_mail (PList (good ++ bad :: rest)) cc subject
                               body w
                 = (Raise e,
                    world_with (List.length good) Message_blank w)).
  { rewrite generate_mail_blocks.
    unfold bind at 1, Message_new at 1.
    unfold bind at 1. unfold recipients_block at 1. unfold bind at 1.
    rewrite (@prepare_each_stops TO bad rest e good [] _ Hgood Hbad).
    reflexivity. }
  unfold outcome, after. rewrite Hrun. repeat split.
Qed.

(** X9 at a list whose second address has no dot after the [@], before
    an integer that is never looked at. *)
Lemma generate_mail_first_refused_address_witness :
  let run := generate_mail
               (PList ([PStr (lit "a@b.com")]
                         ++ PStr (lit "c@d") :: [PInt 5]))
               (PStr []) (lit "Status Update") (lit "hi") in
  (forallb accepted [PStr (lit "a@b.com")] = true
   /\ validate_mail_address (PStr (lit "c@d"))
      = Raise (AssertionError (lit "c@d is not a valid mail address.")))
  /\ outcome run example_world
     = Raise (AssertionError (lit "c@d is not a valid mail address."))
  /\ recipients_constructed (after run example_world)
     = (List.length [PStr (lit "a@b.com")]
        + recipients_constructed example_world)%nat
  /\ message (after run example_world) = Message_blank
  /\ disk (after run example_world) = disk example_world.
Proof.
  intros run. split; [split; reflexivity |].
  apply (@generate_mail_first_refused_address
           [PStr (lit "a@b.com")] (PStr (lit "c@d")) [PInt 5]
           (AssertionError (lit "c@d is not a valid mail address."))
           (PStr []) (lit "Status Update") (lit "hi") example_world);
    reflexivity.
Defined.

(** X10: when [to] is neither a string nor a list, the call raises the
    type error of [to] whatever [cc] is, with no recipient constructed,
    the message as [Message()] made it, and no file written. *)
Theorem generate_mail_to_type_error (to cc : pyval) (subject body : pystr)
        (w : world) :
  str_or_list to = false ->
  let run := generate_mail to cc subject body in
  outcome run w = Raise (TypeError (Some to_type_msg))
  /\ recipients_constructed (after run w) = recipients_constructed w
  /\ message (after run w) = Message_blank
  /\ disk (after run w) = disk w.
Proof.
  intros Hto run. subst run.
  assert (Hrun : generate_mail to cc subject body w
                 = (Raise (TypeError (Some to_type_msg)),
                    with_message Message_blank w)).
  { destruct to; try discriminate; reflexivity. }
  unfold outcome, after. rewrite Hrun. repeat split.
Qed.

(** X10 at to = None and a [cc] that is no valid address either. *)
Lemma generate_mail_to_type_error_witness :
  let run := generate_mail PNone (PInt 123) (lit "Status Update")
                           (lit "hi") in
  str_or_list PNone = false
  /\ outcome run example_world = Raise (TypeError (Some to_type_msg))
  /\ recipients_constructed (after run example_world)
     = recipients_constructed example_world
  /\ message (after run example_world) = Message_blank
  /\ disk (after run example_world) = disk example_world.
Proof.
  intros run. split; [reflexivity |].
  apply (@generate_mail_to_type_error PNone (PInt 123)
           (lit "Status Update") (lit "hi") example_world).
  reflexivity.
Defined.

(** ** The whole call *)


Lemma name_and_save_cases (to : pyval) (subject : pystr) (w : world) :
  (exists e, name_and_save to subject w = (Raise e, w))
  \/ (exists filename,
         name_and_save to subject w
         = (Ok tt,
            {| clock := clock w; writable := writable w;
               disk := (filename, message w) :: disk w;
               recipients_constructed := recipients_constructed w;
               message := message w |})).
Proof.
  unfold name_and_save, bind.
  pose proof (generate_msg_filename_world to subject w) as Hw.
  destruct (generate_msg_filename to subject w) as [[filename | e] w'];
    cbn [snd] in Hw; subst w'.
  - unfold save. destruct (writable w filename).
    + right. exists filename. reflexivity.
    + left. exists OSError. reflexivity.
  - left. exists e. reflexivity.
Qed.



(** X12: whatever its arguments, a call either raises and leaves the
    disk as it was, or returns after writing exactly one file, which
    holds the message as it stands at the end; and it returns only on
    valid [to] and on [cc] the empty string or valid. *)
Theorem generate_mail_all_or_nothing (to cc : pyval) (subject body : pystr)
        (w : world) :
  let run := generate_mail to cc subject body in
  (exists e, outcome run w = Raise e /\ disk (after run w) = disk w)
  \/ (outcome run w = Ok tt
      /\ (exists filename,
             disk (after run w)
             = (filename, message (after run w)) :: disk w)
      /\ valid_recipients to = true
      /\ valid_cc cc = true).
Proof.
  intros run. subst run. unfold outcome, after.
  destruct (valid_recipients to) eqn:Hto;
    [destruct (valid_cc cc) eqn:Hcc |].
  - rewrite (generate_mail_valid _ _ _ _ _ Hto Hcc).
    destruct (name_and_save_cases to subject
                (world_with
                   (List.length (addresses to) + List.length (addresses cc))
                   (assembled to cc subject body) w))
      as [(e & ->) | (filename & ->)].
    + left. exists e. split; reflexivity.
    + right. split; [reflexivity |]. split; [| split; reflexivity].
      exists filename. reflexivity.
  - destruct (generate_mail_invalid to cc subject body w (or_intror Hcc))
      as (e & n & -> & _).
    left. exists e. split; reflexivity.
  - destruct (generate_mail_invalid to cc subject body w (or_introl Hto))
      as (e & n & -> & _).
    left. exists e. split; reflexivity.
Qed.



(** X14: the RTF body holds ASCII bytes only, and decoding it gives back
    the preamble, the HTML encoding of the body and the closing
    brace. *)
Theorem generate_mail_rtf_ascii (to cc : pyval) (subject body : pystr)
        (w : world) :
  valid_recipients to = true ->
  valid_cc cc = true ->
  exists rtf html,
    body_rtf (message (after (generate_mail to cc subject body) w))
    = Some rtf
    /\ Forall (fun b => b < 128) rtf
    /\ encode_html_characters body = Ok html
    /\ decode_utf8 rtf
       = Some (lit "{\rtf1\ansi\ansicpg1252\fromhtml1 \htmlrtf0 " ++ html
                   ++ lit "}").
Proof.
  intros Hto Hcc.
  destruct (generate_mail_message to cc subject body w Hto Hcc) as [-> _].
  assert (Hascii : Forall (fun b => b < 128)
                     (rtf_preamble ++ flat_map html_char body ++ lit "}")).
  { apply Forall_app. split; [repeat constructor |].
    apply Forall_app. split; [apply flat_map_html_char_ascii |].
    repeat constructor. }
  exists (rtf_preamble ++ flat_map html_char body ++ lit "}"),
         (flat_map html_char body).
  split; [reflexivity |]. split; [exact Hascii |].
  split; [apply encode_html_characters_total |].
  apply decode_utf8_ascii, Hascii.
Qed.

(** X14 at a body with a character above the ASCII range. *)
Lemma generate_mail_rtf_ascii_witness :
  (valid_recipients (PStr (lit "a@b.com")) = true
   /\ valid_cc (PStr []) = true)
  /\ exists rtf html,
      body_rtf (message (after (generate_mail (PStr (lit "a@b.com"))
                                  (PStr []) (lit "Status Update") [233])
                               example_world))
      = Some rtf
      /\ Forall (fun b => b < 128) rtf
      /\ encode_html_characters [233] = Ok html
      /\ decode_utf8 rtf
         = Some (lit "{\rtf1\ansi\ansicpg1252\fromhtml1 \htmlrtf0 " ++ html
                     ++ lit "}").
Proof.
  split; [split; reflexivity |].
  apply (@generate_mail_rtf_ascii (PStr (lit "a@b.com")) (PStr [])
           (lit "Status Update") [233] example_world);
    reflexivity.
Defined.

Lemma bind_cong {A B : Type} (c1 c2 : M A) (k1 k2 : A -> M B) (w : world) :
  c1 w = c2 w ->
  (forall a w', k1 a w' = k2 a w') ->
  bind c1 k1 w = bind c2 k2 w.
Proof.
  intros Hc Hk. unfold bind. rewrite Hc.
  destruct (c2 w) as [[a | e] w']; [apply Hk | reflexivity].
Qed.

(** X15: the empty list as [cc] does what the empty string does: the
    two calls have the same outcome and leave the same world. *)
Theorem generate_mail_cc_empty_list (to : pyval) (subject body : pystr)
        (w : world) :
  generate_mail to (PList []) subject body w
  = generate_mail to (PStr []) subject body w.
Proof.
  rewrite !generate_mail_blocks.
  apply bind_cong; [reflexivity |]. intros _ w1.
  apply bind_cong; [reflexivity |]. intros [recipient_to display_to] w2.
  apply bind_cong; [reflexivity |]. intros cc_part w3. reflexivity.
Qed.

Lemma recipients_block_singleton (role : RecipientType) (type_msg a : pystr)
      (w : world) :
  recipients_block role type_msg (PList [PStr a]) w
  = recipients_block role type_msg (PStr a) w.
Proof.
  unfold recipients_block. cbn [prepare_each join].
  unfold bind, lift, ret.
  destruct (prepare_recipients (PStr a) role w) as [[r | e] w'];
    reflexivity.
Qed.

Lemma generate_msg_filename_singleton (a subject : pystr) (w : world) :
  generate_msg_filename (PList [PStr a]) subject w
  = generate_msg_filename (PStr a) subject w.
Proof.
  rewrite generate_msg_filename_list, generate_msg_filename_str.
  rewrite app_nil_r.
  destruct (existsb (N.eqb AT) a) eqn:Hat; [reflexivity |].
  rewrite (before_at_absent a Hat). reflexivity.
Qed.

Lemma populate_and_save_singleton (a subject body : pystr)
      (recipient_to : list Recipient) (display_to : pystr)
      (recipient_cc : list Recipient) (display_cc : pystr) (w : world) :
  populate_and_save (PList [PStr a]) subject body
                    recipient_to display_to recipient_cc display_cc w
  = populate_and_save (PStr a) subject body
                      recipient_to display_to recipient_cc display_cc w.
Proof.
  unfold populate_and_save.
  repeat (apply bind_cong; [reflexivity |]; intros ? ?; cbv zeta).
  apply bind_cong; [apply generate_msg_filename_singleton | reflexivity].
Qed.

(** X16: a list of one address does what the address alone does: for
    every string, accepted or not, the two calls have the same outcome
    and leave the same world, file name included. *)
Theorem generate_mail_singleton_list (a : pystr) (cc : pyval)
        (subject body : pystr) (w : world) :
  generate_mail (PList [PStr a]) cc subject body w
  = generate_mail (PStr a) cc subject body w.
Proof.
  rewrite !generate_mail_blocks.
  apply bind_cong; [reflexivity |]. intros _ w1.
  apply bind_cong; [apply recipients_block_singleton |].
  intros [recipient_to display_to] w2.
  apply bind_cong; [reflexivity |].
  intros [recipient_cc display_cc] w3.
  apply populate_and_save_singleton.
Qed.

(** ** The file name, continued *)

Lemma replace_length (old new : N) (s : pystr) :
  List.length (replace old [new] s) = List.length s.
Proof. rewrite replace_one_for_one. apply length_map. Qed.

Lemma subject_clean_prefix (subject tail : pystr) :
  (30 <= List.length subject)%nat ->
  firstn 30 (replace SPACE [UNDERSCORE] (subject ++ tail))
  = firstn 30 (replace SPACE [UNDERSCORE] subject).
Proof.
  intros Hlen. rewrite replace_app, firstn_app, replace_length.
  replace (30 - List.length subject)%nat with 0%nat by lia.
  cbn [firstn]. apply app_nil_r.
Qed.

Lemma replace_twice (subject : pystr) :
  replace SPACE [UNDERSCORE] (replace SPACE [UNDERSCORE] subject)
  = replace SPACE [UNDERSCORE] subject.
Proof.
  apply replace_absent. rewrite replace_one_for_one.
  apply Forall_forall. intros x Hx. apply in_map_iff in Hx.
  destruct Hx as (c & <- & _).
  destruct (c =? SPACE) eqn:Hc; [discriminate |].
  apply N.eqb_neq, Hc.
Qed.

Lemma generate_msg_filename_clean (to : pyval) (s1 s2 : pystr) (w : world) :
  firstn 30 (replace SPACE [UNDERSCORE] s1)
  = firstn 30 (replace SPACE [UNDERSCORE] s2) ->
  generate_msg_filename to s1 w = generate_msg_filename to s2 w.
Proof.
  intros H. unfold generate_msg_filename. rewrite H. reflexivity.
Qed.

(** X17: the file name takes from the subject its first 30 characters
    only, and reads a space as an underscore: subjects that differ after
    their 30th character, or by underscores in place of spaces, get the
    same file name. *)
Theorem generate_msg_filename_subject_collisions (to : pyval) (w : world) :
  (forall subject tail1 tail2 : pystr,
      (30 <= List.length subject)%nat ->
      generate_msg_filename to (subject ++ tail1) w
      = generate_msg_filename to (subject ++ tail2) w)
  /\ (forall subject : pystr,
         generate_msg_filename to (replace SPACE [UNDERSCORE] subject) w
         = generate_msg_filename to subject w).
Proof.
  split.
  - intros subject tail1 tail2 Hlen. apply generate_msg_filename_clean.
    rewrite !subject_clean_prefix by exact Hlen. reflexivity.
  - intros subject. apply generate_msg_filename_clean.
    rewrite replace_twice. reflexivity.
Qed.

(** X17 at a subject of 30 characters followed by " one" and by
    " two". *)
Lemma generate_msg_filename_subject_collisions_witness :
  let subject := lit "Quarterly report for the board" in
  (30 <= List.length subject)%nat
  /\ generate_msg_filename (PStr (lit "a@b.com")) (subject ++ lit " one")
                           example_world
     = generate_msg_filename (PStr (lit "a@b.com")) (subject ++ lit " two")
                             example_world.
Proof.
  intros subject.
  assert (Hlen : (30 <= List.length subject)%nat) by (cbn; lia).
  split; [exact Hlen |].
  apply (proj1 (generate_msg_filename_subject_collisions
                  (PStr (lit "a@b.com")) example_world)
               subject (lit " one") (lit " two") Hlen).
Defined.

Lemma before_at_app (l d : pystr) :
  before_at (l ++ AT :: d) = before_at l.
Proof.
  induction l as [| c l IH]; cbn [app before_at].
  - rewrite N.eqb_refl. reflexivity.
  - destruct (c =? AT); [reflexivity | rewrite IH; reflexivity].
Qed.

Lemma existsb_at_app (l d : pystr) :
  existsb (N.eqb AT) (l ++ AT :: d) = true.
Proof.
  rewrite existsb_app. cbn [existsb]. rewrite N.eqb_refl.
  apply orb_true_iff. right. reflexivity.
Qed.

(** X18: the file name takes from the recipients the part before the
    first [@] of the first one, and whether there are others: addresses
    that differ after the [@], and lists that differ after their first
    element, get the same file name. *)
Theorem generate_msg_filename_recipient_collisions (subject : pystr)
        (w : world) :
  (forall l d1 d2 : pystr,
      generate_msg_filename (PStr (l ++ AT :: d1)) subject w
      = generate_msg_filename (PStr (l ++ AT :: d2)) subject w)
  /\ (forall (first : pystr) (o1 o2 : pyval) (os1 os2 : list pyval),
         generate_msg_filename (PList (PStr first :: o1 :: os1)) subject w
         = generate_msg_filename (PList (PStr first :: o2 :: os2)) subject w).
Proof.
  split.
  - intros l d1 d2. rewrite !generate_msg_filename_str.
    rewrite !existsb_at_app, !before_at_app. reflexivity.
  - intros first o1 o2 os1 os2. rewrite !generate_msg_filename_list.
    reflexivity.
Qed.

Lemma before_at_no_at (s : pystr) : ~ In AT (before_at s).
Proof.
  induction s as [| c s IH]; cbn [before_at]; [tauto |].
  destruct (c =? AT) eqn:Hc; [cbn; tauto |].
  apply N.eqb_neq in Hc. intros [H | H]; [congruence | exact (IH H)].
Qed.

Lemma recipient_tag_no_at (to : pyval) : ~ In AT (recipient_tag to).
Proof.
  destruct to as [s | [| [first | | | |] others] | | |];
    cbn [recipient_tag]; try (cbn; tauto).
  - destruct (existsb (N.eqb AT) s) eqn:Hat; [apply before_at_no_at |].
    intros Hin.
    assert (Hyes : existsb (N.eqb AT) s = true).
    { apply existsb_exists. exists AT.
      split; [exact Hin | apply N.eqb_refl]. }
    congruence.
  - intros Hin. apply in_app_or in Hin. destruct Hin as [Hin | Hin].
    + exact (before_at_no_at _ Hin).
    + destruct others; cbn in Hin; [tauto |].
      repeat (destruct Hin as [Hin | Hin]; [discriminate |]). exact Hin.
Qed.

Lemma subject_tag_form (subject : pystr) :
  (List.length (subject_tag subject) <= 30)%nat
  /\ ~ In SPACE (subject_tag subject).
Proof.
  unfold subject_tag. split; [apply firstn_le_length |].
  intros Hin.
  match type of Hin with
  | In _ (firstn _ ?l) =>
      assert (Hl : In SPACE l)
        by (rewrite <- (firstn_skipn 30 l); apply in_or_app; left;
            exact Hin)
  end.
  clear Hin. rename Hl into Hin.
  apply in_map_iff in Hin. destruct Hin as (c & Hc & _).
  destruct (c =? SPACE) eqn:E; [discriminate |].
  apply N.eqb_neq in E. congruence.
Qed.

Lemma generate_msg_filename_ok (to : pyval) (subject : pystr) (w : world)
      (name : pystr) :
  generate_msg_filename to subject w = (Ok name, w) ->
  name = msg_filename (clock w) (recipient_tag to) subject.
Proof.
  destruct to as [s | [| [first | | | |] others] | | |];
    try discriminate.
  - rewrite generate_msg_filename_str. intros H. injection H as <-.
    reflexivity.
  - rewrite generate_msg_filename_list. intros H. injection H as <-.
    reflexivity.
Qed.

(** X19: a file name that is returned is the timestamp, a recipient tag
    without [@], a subject tag of at most 30 characters without a space,
    and the extension, with underscores between them. *)
Theorem generate_msg_filename_form (to : pyval) (subject : pystr) (w : world)
        (name : pystr) :
  outcome (generate_msg_filename to subject) w = Ok name ->
  exists tag clean,
    name = strftime_Ymd_HMS (clock w) ++ lit "_" ++ tag ++ lit "_"
             ++ clean ++ lit ".msg"
    /\ ~ In AT tag
    /\ (List.length clean <= 30)%nat
    /\ ~ In SPACE clean.
Proof.
  unfold outcome. intros H.
  pose proof (generate_msg_filename_world to subject w) as Hw.
  destruct (generate_msg_filename to subject w) as [r w'] eqn:Hrun.
  cbn [fst snd] in H, Hw. subst r w'.
  apply generate_msg_filename_ok in Hrun.
  exists (recipient_tag to), (subject_tag subject).
  split; [exact Hrun |]. split; [apply recipient_tag_no_at |].
  apply subject_tag_form.
Qed.

(** X19 at an address and a subject of two words. *)
Lemma generate_msg_filename_form_witness :
  outcome (generate_msg_filename (PStr (lit "a@x.com")) (lit "Hello World"))
          example_world
  = Ok (lit "20240102_030405_a_Hello_World.msg")
  /\ exists tag clean,
      lit "20240102_030405_a_Hello_World.msg"
      = strftime_Ymd_HMS (clock example_world) ++ lit "_" ++ tag ++ lit "_"
          ++ clean ++ lit ".msg"
      /\ ~ In AT tag
      /\ (List.length clean <= 30)%nat
      /\ ~ In SPACE clean.
Proof.
  split; [reflexivity |].
  apply (@generate_msg_filename_form (PStr (lit "a@x.com"))
           (lit "Hello World") example_world
           (lit "20240102_030405_a_Hello_World.msg")).
  reflexivity.
Defined.

(** ** The copy recipients *)

(** X20: with valid [to], the first address of a list [cc] that the
    validator refuses ends the call with the error of that address: the
    primary recipients and the copies before it have been constructed,
    and the message and the disk are untouched. *)
Theorem generate_mail_first_refused_copy (to : pyval) (good : list pyval)
        (bad : pyval) (rest : list pyval) (e : exn) (subject body : pystr)
        (w : world) :
  valid_recipients to = true ->
  forallb accepted good = true ->
  validate_mail_address bad = Raise e ->
  let run := generate_mail to (PList (good ++ bad :: rest)) subject body in
  outcome run w = Raise e
  /\ recipients_constructed (after run w)
     = (List.length (addresses to) + List.length good
        + recipients_constructed w)%nat
  /\ message (after run w) = Message_blank
  /\ disk (after run w) = disk w.
Proof.
  intros Hto Hgood Hbad run. subst run.
  assert (Hrun : generate_mail to (PList (good ++ bad :: rest)) subject
                               body w
                 = (Raise e,
                    world_with (List.length (addresses to)
                                + List.length good) Message_blank w)).
  { rewrite generate_mail_blocks.
    unfold bind at 1, Message_new at 1.
    unfold bind at 1. rewrite (recipients_block_valid _ _ _ _ Hto).
    unfold bind at 1. cbn [ne_empty_str].
    unfold recipients_block at 1. unfold bind at 1.
    rewrite (@prepare_each_stops CC bad rest e good [] _ Hgood Hbad).
    f_equal. destruct w. unfold world_with, with_message. cbn.
    f_equal. lia. }
  unfold outcome, after. rewrite Hrun. repeat split.
Qed.

(** X20 at one primary recipient and a [cc] list whose second element
    is not a string. *)
Lemma generate_mail_first_refused_copy_witness :
  let run := generate_mail (PStr (lit "a@b.com"))
               (PList ([PStr (lit "c@d.com")] ++ PNone :: []))
               (lit "Status Update") (lit "hi") in
  (valid_recipients (PStr (lit "a@b.com")) = true
   /\ forallb accepted [PStr (lit "c@d.com")] = true
   /\ validate_mail_address PNone = Raise (TypeError None))
  /\ outcome run example_world = Raise (TypeError None)
  /\ recipients_constructed (after run example_world)
     = (List.length (addresses (PStr (lit "a@b.com")))
        + List.length [PStr (lit "c@d.com")]
        + recipients_constructed example_world)%nat
  /\ message (after run example_world) = Message_blank
  /\ disk (after run example_world) = disk example_world.
Proof.
  intros run. split; [repeat split |].
  apply (@generate_mail_first_refused_copy (PStr (lit "a@b.com"))
           [PStr (lit "c@d.com")] PNone [] (TypeError None)
           (lit "Status Update") (lit "hi") example_world);
    reflexivity.
Defined.
